(** * stestr: run-configuration resolver, [init] and [last] commands

    A shallow embedding of [stestr/config_file.py], [stestr/commands/init.py]
    and [stestr/commands/last.py], with the properties their specification
    states about them.

    Python strings are [string]; [None]-able parameters are [option];
    exceptions and [sys.exit] are an explicit outcome; output streams and the
    calls made to the repository gateway are threaded through a small
    state-and-exception monad. *)

From Stdlib Require Import Ascii String List Bool Arith ZArith Lia.
From stdpp Require Import base strings gmap.

Local Open Scope string_scope.
Local Open Scope list_scope.

(** ** Characters the sources name explicitly *)

Definition backslash : ascii := "\"%char.
Definition dot : ascii := "."%char.
Definition LF : ascii := "010"%char.
Definition dquote : ascii := "034"%char.

(** ** The fragment of Python's [re] the sources use

    The two patterns of [config_file.py] are [(?<=[^\\])\\$] and
    [([^\.]*\.)*].  They use: literal characters, negated character sets,
    concatenation, the greedy star, a capturing group, a one-character
    look-behind and the [$] anchor; [^] is there for the patterns users
    write.

    Limits.  Subjects and patterns are strings of 8-bit characters: paths
    and test ids are taken to be ASCII (Python matches code points).  A
    pattern outside the fragment is not read ([re_compile] gives [None]),
    also when Python compiles it; no property below is stated of the
    classifier of such a pattern. *)

Module Re.

(** A character set: [cs_members] when [cs_negated] is false, its complement
    otherwise.  A literal character is the positive singleton. *)
Record charset := { cs_negated : bool; cs_members : list ascii }.

Definition cs_lit (c : ascii) : charset :=
  {| cs_negated := false; cs_members := [c] |}.
Definition cs_not (cs : list ascii) : charset :=
  {| cs_negated := true; cs_members := cs |}.

Definition cs_mem (cs : charset) (c : ascii) : bool :=
  xorb (cs_negated cs) (existsb (Ascii.eqb c) (cs_members cs)).

Inductive regex : Type :=
| Empty                          (* the empty pattern *)
| Chr (cs : charset)             (* one character of the set *)
| Cat (r1 r2 : regex)            (* r1 r2 *)
| Star (r : regex)               (* r*, greedy *)
| Group (r : regex)              (* (r), capturing *)
| Lookbehind (cs : charset)      (* (?<=cs), one character wide *)
| Dollar                         (* $ without MULTILINE *)
| Caret.                         (* ^ without MULTILINE *)

(** [$] matches at the end of the string and just before a line feed that
    is the last character of the string. *)
Definition at_dollar (s : string) : bool :=
  match s with
  | EmptyString => true
  | String c EmptyString => Ascii.eqb c LF
  | _ => false
  end.

(** The loop of a starred pattern: [body] matches one iteration, [k] is
    what follows the loop.  One more iteration is tried first and the loop
    is left only when that fails (greedy); an iteration that consumes
    nothing is not repeated.  [n] bounds the number of iterations and is
    the length of the text, since each consumes a character. *)
Section StarLoop.
Variable body : option ascii -> string ->
                (option ascii -> string -> option string) -> option string.
Variable k : option ascii -> string -> option string.

Fixpoint star_loop (n : nat) (prev : option ascii) (s : string)
    : option string :=
  match n with
  | O => k prev s
  | S n' =>
      match body prev s
              (fun p' s' =>
                 if Nat.ltb (String.length s') (String.length s)
                 then star_loop n' p' s' else None) with
      | Some rest => Some rest
      | None => k prev s
      end
  end.

End StarLoop.

(** The backtracking matcher.  The subject is seen through the character
    before the current position ([prev], [None] at the start of the string)
    and the text from the current position on ([s]).  [k] is what remains
    to be matched; the result is the text left after the whole match. *)
Fixpoint rmatch (r : regex) (prev : option ascii) (s : string)
    (k : option ascii -> string -> option string) {struct r} : option string :=
  match r with
  | Empty => k prev s
  | Chr cs =>
      match s with
      | String c s' => if cs_mem cs c then k (Some c) s' else None
      | EmptyString => None
      end
  | Cat r1 r2 => rmatch r1 prev s (fun p' s' => rmatch r2 p' s' k)
  | Group r1 => rmatch r1 prev s k
  | Lookbehind cs =>
      match prev with
      | Some c => if cs_mem cs c then k prev s else None
      | None => None
      end
  | Dollar => if at_dollar s then k prev s else None
  | Caret =>
      match prev with
      | None => k prev s
      | Some _ => None
      end
  | Star r1 => star_loop (rmatch r1) k (String.length s) prev s
  end.

(** The text a match starting at [s] consumed, given what it left. *)
Definition consumed (s rest : string) : string :=
  substring 0 (String.length s - String.length rest) s.

(** A match object; only [group(0)] is used by the sources. *)
Record Match := { group0 : string }.

(** [pattern.match(s)]: a match anchored at the start of [s]. *)
Definition re_match (r : regex) (s : string) : option Match :=
  match rmatch r None s (fun _ rest => Some rest) with
  | Some rest => Some {| group0 := consumed s rest |}
  | None => None
  end.

(** Expansion of a replacement template: [\\] stands for one backslash.
    The template of the sources holds no other escape and no group
    reference; other characters stand for themselves. *)
Fixpoint expand_template (t : string) : string :=
  match t with
  | EmptyString => EmptyString
  | String a t1 =>
      match t1 with
      | String b t2 =>
          if Ascii.eqb a backslash && Ascii.eqb b backslash
          then String backslash (expand_template t2)
          else String a (expand_template t1)
      | EmptyString => t
      end
  end.

(** What follows a top-level match: any end, or only an end past the
    start of the match. *)
Definition any_end (start : string) : option ascii -> string -> option string :=
  fun _ rest => Some rest.

Definition advancing_end (start : string)
    : option ascii -> string -> option string :=
  fun _ rest =>
    if Nat.ltb (String.length rest) (String.length start)
    then Some rest else None.

(** [pattern.sub(repl, s)], scanning [s] from the left.  [prev] is the
    character before the current position and [skip] the number of characters
    still covered by the last match.  Every match is replaced by the expanded
    template; text between matches is copied.  After a match of the empty
    string the search is made again at the same position for a match that
    advances, and moves on by one character when there is none. *)
Fixpoint sub_scan (r : regex) (repl : string) (prev : option ascii)
    (s : string) (skip : nat) : string :=
  match s with
  | EmptyString =>
      match skip, rmatch r prev EmptyString (any_end EmptyString) with
      | O, Some _ => repl
      | _, _ => EmptyString
      end
  | String c s' =>
      match skip with
      | S skip' => sub_scan r repl (Some c) s' skip'
      | O =>
          match rmatch r prev s (any_end s) with
          | Some rest =>
              match String.length s - String.length rest with
              | S n => repl +:+ sub_scan r repl (Some c) s' n
              | O =>
                  repl +:+
                  match rmatch r prev s (advancing_end s) with
                  | Some rest' =>
                      repl +:+ sub_scan r repl (Some c) s'
                                 (String.length s' - String.length rest')
                  | None => String c (sub_scan r repl (Some c) s' 0)
                  end
              end
          | None => String c (sub_scan r repl (Some c) s' 0)
          end
      end
  end.

Definition re_sub (r : regex) (template : string) (s : string) : string :=
  sub_scan r (expand_template template) None s 0.

(** *** Reading a pattern

    [re_compile] reads the pattern syntax of the fragment above: a character,
    an escaped punctuation character, a set [[...]] or [[^...]] of such
    characters, a group, a look-behind of one character, a starred item and
    [$] and [^].  Everything else ([.], [+], [?], [|], braces, ranges, letter
    and digit escapes, other [(?...)] forms) gives [None]: the pattern is
    outside the fragment (Python may accept or refuse it). *)

Definition is_alnum (c : ascii) : bool :=
  let n := nat_of_ascii c in
  (Nat.leb 48 n && Nat.leb n 57) || (Nat.leb 65 n && Nat.leb n 90)
  || (Nat.leb 97 n && Nat.leb n 122).

Definition escapable (c : ascii) : bool :=
  negb (is_alnum c) && Nat.ltb (nat_of_ascii c) 128.

Definition is_special (c : ascii) : bool :=
  existsb (Ascii.eqb c)
    ["."; "^"; "$"; "*"; "+"; "?"; "{"; "}"; "["; "]"; "\"; "|"; "("; ")"]%char.

(** The members of a set, up to its closing bracket. *)
Fixpoint parse_set_items (s : string) : option (list ascii * string) :=
  match s with
  | EmptyString => None
  | String c s' =>
      if Ascii.eqb c "]" then Some ([], s')
      else if Ascii.eqb c "\" then
        match s' with
        | String e s'' =>
            if escapable e then
              match parse_set_items s'' with
              | Some (cs, rest) => Some (e :: cs, rest)
              | None => None
              end
            else None
        | EmptyString => None
        end
      else if Ascii.eqb c "-" || Ascii.eqb c "[" || Ascii.eqb c "^" then None
      else
        match parse_set_items s' with
        | Some (cs, rest) => Some (c :: cs, rest)
        | None => None
        end
  end.

(** What follows an opening bracket. *)
Definition parse_set (s : string) : option (regex * string) :=
  let '(neg, body) :=
    match s with
    | String c s' => if Ascii.eqb c "^" then (true, s') else (false, s)
    | EmptyString => (false, s)
    end in
  match parse_set_items body with
  | Some ([], _) => None
  | Some (cs, rest) => Some (Chr {| cs_negated := neg; cs_members := cs |}, rest)
  | None => None
  end.

Definition cat (r1 r2 : regex) : regex :=
  match r2 with
  | Empty => r1
  | _ => Cat r1 r2
  end.

Definition expect_close (res : option (regex * string)) : option (regex * string) :=
  match res with
  | Some (r, String c rest) => if Ascii.eqb c ")" then Some (r, rest) else None
  | _ => None
  end.

(** One item; [rec] reads the sequence inside parentheses. *)
Definition parse_atom (rec : string -> option (regex * string)) (s : string)
    : option (regex * string) :=
  match s with
  | EmptyString => None
  | String c s' =>
      if Ascii.eqb c "\" then
        match s' with
        | String e s'' => if escapable e then Some (Chr (cs_lit e), s'') else None
        | EmptyString => None
        end
      else if Ascii.eqb c "[" then parse_set s'
      else if Ascii.eqb c "(" then
        match s' with
        | String q s2 =>
            if Ascii.eqb q "?" then
              match s2 with
              | String a (String b s3) =>
                  if Ascii.eqb a "<" && Ascii.eqb b "=" then
                    match expect_close (rec s3) with
                    | Some (Chr cs, rest) => Some (Lookbehind cs, rest)
                    | _ => None
                    end
                  else None
              | _ => None
              end
            else
              match expect_close (rec s') with
              | Some (r, rest) => Some (Group r, rest)
              | None => None
              end
        | EmptyString => None
        end
      else if Ascii.eqb c "$" then Some (Dollar, s')
      else if Ascii.eqb c "^" then Some (Caret, s')
      else if is_special c then None
      else Some (Chr (cs_lit c), s')
  end.

(** [^] and [$] cannot be starred (Python: nothing to repeat). *)
Definition is_anchor (r : regex) : bool :=
  match r with
  | Dollar | Caret => true
  | _ => false
  end.

(** A sequence of items, each possibly starred, up to a closing parenthesis
    or the end of the pattern. *)
Fixpoint parse_seq (fuel : nat) (s : string) : option (regex * string) :=
  match fuel with
  | O => None
  | S fuel' =>
      match s with
      | EmptyString => Some (Empty, s)
      | String c _ =>
          if Ascii.eqb c ")" then Some (Empty, s)
          else
            match parse_atom (parse_seq fuel') s with
            | Some (a, rest) =>
                match
                  match rest with
                  | String d rest1 =>
                      if Ascii.eqb d "*"
                      then (if is_anchor a then None else Some (Star a, rest1))
                      else Some (a, rest)
                  | EmptyString => Some (a, rest)
                  end
                with
                | Some (a', rest') =>
                    match parse_seq fuel' rest' with
                    | Some (r, rest'') => Some (cat a' r, rest'')
                    | None => None
                    end
                | None => None
                end
            | None => None
            end
      end
  end.

(** [re.compile(pattern)] on the fragment. *)
Definition re_compile (pattern : string) : option regex :=
  match parse_seq (S (String.length pattern)) pattern with
  | Some (r, EmptyString) => Some r
  | _ => None
  end.

End Re.


(** ** Outcomes, exceptions and the world *)

(** The argument of [sys.exit]: an integer status, or a message (printed to
    the error stream by the interpreter, status 1). *)
Inductive exit_arg : Type :=
| ExitCode (n : Z)
| ExitMsg (msg : string).

Definition exit_status (a : exit_arg) : Z :=
  match a with
  | ExitCode n => n
  | ExitMsg _ => 1%Z
  end.

(** The exceptions the sources raise or catch.  [KeyError] and
    [RepositoryNotFound] carry the text [str(e)] gives. *)
Inductive exn : Type :=
| SystemExit (arg : exit_arg)
| RuntimeError (msg : string)
| OSError (errno : option Z)
| KeyError (str_e : string)
| RepositoryNotFound (str_e : string)
| AttributeError (msg : string)
| PatternNotCompiled (pattern : string)   (* re.error, or outside [Re] *)
| OtherError (name : string).             (* anything else a collaborator raises *)

Inductive outcome (A : Type) : Type :=
| Ret (a : A)
| Raise (e : exn).
Arguments Ret {A} a.
Arguments Raise {A} e.

Definition EEXIST : Z := 17%Z.

(** Calls to [stestr.repository.util], the repository gateway. *)
Inductive gateway_call : Type :=
| GetRepoOpen (repo_url : option string)
| GetRepoInitialise (repo_type : string) (repo_url : option string).

(** What the process can write to and the objects of its collaborators
    (result collectors, open streams, the stores themselves). *)
Record Sys (Heap : Type) : Type := {
  stdout : string;
  stderr : string;
  heap : Heap
}.
Arguments stdout {Heap} _.
Arguments stderr {Heap} _.
Arguments heap {Heap} _.

Record World (Heap : Type) : Type := {
  w_sys : Sys Heap;
  w_gateway_calls : list gateway_call   (* oldest first *)
}.
Arguments w_sys {Heap} _.
Arguments w_gateway_calls {Heap} _.

(** A collaborator's action: it sees the streams and the heap, not the log
    of gateway calls. *)
Definition ext (Heap A : Type) : Type := Sys Heap -> outcome A * Sys Heap.

(** An action of the modelled code. *)
Definition M (Heap A : Type) : Type := World Heap -> outcome A * World Heap.

Section Monad.
Context {Heap : Type}.

Definition ret {A} (a : A) : M Heap A := fun w => (Ret a, w).

Definition raise {A} (e : exn) : M Heap A := fun w => (Raise e, w).

Definition bind {A B} (c : M Heap A) (k : A -> M Heap B) : M Heap B :=
  fun w =>
    match c w with
    | (Ret a, w') => k a w'
    | (Raise e, w') => (Raise e, w')
    end.

Definition lift {A} (c : ext Heap A) : M Heap A :=
  fun w =>
    let '(r, sy) := c (w_sys w) in
    (r, {| w_sys := sy; w_gateway_calls := w_gateway_calls w |}).

(** A pure collaborator result that may be an exception. *)
Definition of_outcome {A} (r : outcome A) : M Heap A := fun w => (r, w).

(** [try: c except ...: handler]: [handler e] is [None] when no clause
    catches [e] (or the clause re-raises it). *)
Definition try_except {A} (c : M Heap A) (handler : exn -> option (M Heap A))
    : M Heap A :=
  fun w =>
    match c w with
    | (Ret a, w') => (Ret a, w')
    | (Raise e, w') =>
        match handler e with
        | Some h => h w'
        | None => (Raise e, w')
        end
    end.

(** [try: c finally: f] *)
Definition try_finally {A} (c : M Heap A) (f : M Heap unit) : M Heap A :=
  fun w =>
    match c w with
    | (r, w') =>
        match f w' with
        | (Ret _, w'') => (r, w'')
        | (Raise e, w'') => (Raise e, w'')
        end
    end.

Definition stdout_write (text : string) : M Heap unit :=
  fun w =>
    (Ret tt,
     {| w_sys := {| stdout := stdout (w_sys w) +:+ text;
                    stderr := stderr (w_sys w);
                    heap := heap (w_sys w) |};
        w_gateway_calls := w_gateway_calls w |}).

Definition stderr_write (text : string) : M Heap unit :=
  fun w =>
    (Ret tt,
     {| w_sys := {| stdout := stdout (w_sys w);
                    stderr := stderr (w_sys w) +:+ text;
                    heap := heap (w_sys w) |};
        w_gateway_calls := w_gateway_calls w |}).

(** [print(text)] *)
Definition print (text : string) : M Heap unit :=
  stdout_write (text +:+ String LF EmptyString).

Definition sys_exit {A} (arg : exit_arg) : M Heap A := raise (SystemExit arg).

Definition log_gateway (c : gateway_call) : M Heap unit :=
  fun w =>
    (Ret tt,
     {| w_sys := w_sys w; w_gateway_calls := w_gateway_calls w ++ [c] |}).

End Monad.

Declare Scope py_scope.
Delimit Scope py_scope with py.
Notation "'let!' x ':=' c 'in' k" := (bind c (fun x => k))
  (at level 10, x name, c at level 100, k at level 200) : py_scope.
Notation "c ';;' k" := (bind c (fun _ => k))
  (at level 100, k at level 200, right associativity) : py_scope.
Local Open Scope py_scope.

(** Truth value of an optional string ([None] and [''] are false). *)
Definition truthy (o : option string) : bool :=
  match o with
  | Some (String _ _) => true
  | _ => false
  end.

(** Truth value of an optional flag ([None] is false). *)
Definition truthy_flag (o : option bool) : bool :=
  match o with
  | Some b => b
  | None => false
  end.

(** ** The collaborators

    The modules the three sources import from the rest of stestr, with the
    types of the objects they hand out.  Each operation is an action on the
    streams and the heap and may raise.  The output stream the sources pass
    on ([stdout]) is the one of [Sys]. *)

(** A user configuration ([user_config.UserConfig]): its [last] and [run]
    properties, [None] when the file has no such section.  The keys read
    here hold booleans. *)
Record UserConfig : Type := {
  uc_last : option (gmap string bool);
  uc_run : option (gmap string bool)
}.

Record Collaborators : Type := {
  Heap : Type;
  Repository : Type;
  Run : Type;
  Stream : Type;
  TestCase : Type;
  Collector : Type;
  Summary : Type;
  (* stestr.repository.util *)
  util_get_repo_open : option string -> ext Heap Repository;
  util_get_repo_initialise : string -> option string -> ext Heap Repository;
  (* a repository *)
  repo_get_latest_run : Repository -> ext Heap Run;
  repo_get_test_run : Repository -> Z -> ext Heap Run;
  repo_latest_id : Repository -> ext Heap Z;
  (* a run *)
  run_get_subunit_stream : Run -> ext Heap Stream;
  run_get_test : Run -> ext Heap TestCase;
  (* stestr.output *)
  output_stream : Stream -> ext Heap unit;
  (* stestr.results *)
  CLITestResult : Run -> option Run -> ext Heap Collector;
  get_summary : Collector -> ext Heap Summary;
  startTestRun : Collector -> ext Heap unit;
  case_run : TestCase -> Collector -> ext Heap unit;
  stopTestRun : Collector -> ext Heap unit;
  wasSuccessful : Summary -> ext Heap bool;
  (* stestr.subunit_trace: the truth value of what [trace] returns;
     arguments: stream, color, suppress_attachments, all_attachments,
     show_binary_attachments *)
  subunit_trace_trace : Stream -> bool -> bool -> bool -> bool -> ext Heap bool;
  (* stestr.user_config *)
  get_user_config : option string -> ext Heap (option UserConfig);
  (* warnings.warn(msg, DeprecationWarning, stacklevel=2) *)
  warnings_warn : string -> ext Heap unit
}.

(** ** [stestr/config_file.py] *)

(** The process environment [get_run_command] reads. *)
Record Platform : Type := {
  os_sep : string;                    (* os.sep *)
  sys_platform : string;              (* sys.platform *)
  sys_executable : option string;     (* sys.executable *)
  environ_PYTHON : option string;     (* os.environ.get('PYTHON') *)
  path_exists : string -> bool        (* os.path.exists *)
}.

(** The [configparser.ConfigParser] after it has read the file: the three
    queries the resolver makes.  [get] and [getboolean] may raise. *)
Record ConfigParser : Type := {
  has_option : string -> string -> bool;
  get : string -> string -> outcome string;
  getboolean : string -> string -> outcome bool
}.

Record TestrConf : Type := {
  parser : ConfigParser;
  config_file : string;
  section : string
}.

(** Line 34, [re.compile(r'(?<=[^\\])\\$')], as [Re.re_compile] reads it. *)
Definition _escape_trailing_backslash_re : Re.regex :=
  Re.Cat (Re.Lookbehind (Re.cs_not [backslash]))
         (Re.Cat (Re.Chr (Re.cs_lit backslash)) Re.Dollar).

(** Lines 42-48; the template [r'\\\\'] is four characters. *)
Definition _sanitize_path (pf : Platform) (path : string) : string :=
  if String.eqb (os_sep pf) "\"
  then Re.re_sub _escape_trailing_backslash_re "\\\\" path
  else path.

(** The pattern of [parallel_class], as written and as compiled. *)
Definition parallel_class_pattern : string := "([^\.]*\.)*".

Definition parallel_class_re : Re.regex :=
  Re.Star (Re.Group (Re.Cat (Re.Star (Re.Chr (Re.cs_not [dot])))
                            (Re.Chr (Re.cs_lit dot)))).

(** The closure [group_callback(test_id, regex=re.compile(group_regex))]:
    a match object is always true, so a match gives [group(0)], also when
    that is the empty string; no match gives [None]. *)
Definition group_callback (regex : Re.regex) (test_id : string) : option string :=
  match Re.re_match regex test_id with
  | Some m => Some (Re.group0 m)
  | None => None
  end.

(** The keyword arguments of [get_run_command]. *)
Record RunArgs : Type := {
  test_ids : option (list string);
  regexes : option (list string);
  test_path : option string;
  top_dir : option string;
  group_regex : option string;
  repo_url : option string;
  serial : bool;
  worker_path : option string;
  concurrency : Z;
  exclude_list : option string;
  include_list : option string;
  exclude_regex : option string;
  randomize : bool;
  parallel_class : option bool
}.

Definition default_run_args : RunArgs := {|
  test_ids := None; regexes := None; test_path := None; top_dir := None;
  group_regex := None; repo_url := None; serial := false;
  worker_path := None; concurrency := 0%Z; exclude_list := None;
  include_list := None; exclude_regex := None; randomize := false;
  parallel_class := None
|}.

(** [test_processor.TestProcessorFixture], as constructed at the end of
    [get_run_command]. *)
Record TestProcessorFixture (Repository : Type) : Type := {
  f_test_ids : option (list string);
  f_cmd_template : string;
  f_listopt : string;
  f_idoption : string;
  f_repository : Repository;
  f_test_filters : option (list string);
  f_group_callback : option (string -> option string);
  f_serial : bool;
  f_worker_path : option string;
  f_concurrency : Z;
  f_exclude_list : option string;
  f_exclude_regex : option string;
  f_include_list : option string;
  f_randomize : bool
}.
Arguments f_test_ids {Repository} _.
Arguments f_cmd_template {Repository} _.
Arguments f_listopt {Repository} _.
Arguments f_idoption {Repository} _.
Arguments f_repository {Repository} _.
Arguments f_test_filters {Repository} _.
Arguments f_group_callback {Repository} _.
Arguments f_serial {Repository} _.
Arguments f_worker_path {Repository} _.
Arguments f_concurrency {Repository} _.
Arguments f_exclude_list {Repository} _.
Arguments f_exclude_regex {Repository} _.
Arguments f_include_list {Repository} _.
Arguments f_randomize {Repository} _.

Definition no_test_path_message (config_file : string) : string :=
  "No test_path can be found in either the command line "
  +:+ "options nor in the specified config file " +:+ config_file
  +:+ ".  Please "
  +:+ "specify a test path either in the config file or via "
  +:+ "the --test-path argument".

(** ['"%s"' % python] *)
Definition quoted (python : string) : string :=
  String dquote python +:+ String dquote EmptyString.

(** The command line with its two placeholders. *)
Definition command_template (python top_dir test_path : string) : string :=
  python +:+ " -m stestr.subunit_runner.run discover -t "
  +:+ quoted top_dir +:+ " " +:+ quoted test_path +:+ " "
  +:+ "$LISTOPT $IDOPTION".

Section ConfigFile.
Variable C : Collaborators.

(** The two operations of the gateway, each recorded in the log. *)
Definition get_repo_open (repo_url : option string) : M (Heap C) (Repository C) :=
  log_gateway (GetRepoOpen repo_url) ;;
  lift (util_get_repo_open C repo_url).

Definition get_repo_initialise (repo_type : string) (repo_url : option string)
    : M (Heap C) (Repository C) :=
  log_gateway (GetRepoInitialise repo_type repo_url) ;;
  lift (util_get_repo_initialise C repo_type repo_url).

(** Lines 109-115: the argument, else the option of the section, else
    [sys.exit].  In the last branch the argument is a non-empty string. *)
Definition resolve_test_path (self : TestrConf) (test_path : option string)
    : M (Heap C) string :=
  if negb (truthy test_path) && has_option (parser self) (section self) "test_path"
  then of_outcome (get (parser self) (section self) "test_path")
  else if negb (truthy test_path)
  then sys_exit (ExitMsg (no_test_path_message (config_file self)))
  else ret (default "" test_path).

(** Lines 116-119: the argument, else the option of the section, else
    [./]. *)
Definition resolve_top_dir (self : TestrConf) (top_dir : option string)
    : M (Heap C) string :=
  if negb (truthy top_dir) && has_option (parser self) (section self) "top_dir"
  then of_outcome (get (parser self) (section self) "top_dir")
  else if negb (truthy top_dir)
  then ret "./"
  else ret (default "" top_dir).

(** Lines 124-138: the interpreter of the command. *)
Definition resolve_python (pf : Platform) : M (Heap C) string :=
  let stestr_python := sys_executable pf in
  if String.eqb (sys_platform pf) "win32" then
    if negb (truthy stestr_python)
    then raise (RuntimeError "The Python interpreter was not found")
    else ret (default "" stestr_python)
  else
    if truthy (environ_PYTHON pf) then ret "${PYTHON}"
    else if truthy stestr_python then ret (default "" stestr_python)
    else raise (RuntimeError
                  ("The Python interpreter was not found and "
                   +:+ "PYTHON is not set")).

(** Lines 150-158: the three steps that settle the group pattern, in the
    order of the source.  The first does not look at the pattern given. *)
Definition resolve_group_regex (self : TestrConf) (args : RunArgs)
    : M (Heap C) (option string) :=
  let group_regex1 :=
    if truthy_flag (parallel_class args)
    then Some parallel_class_pattern else group_regex args in
  let! group_regex2 :=
    (if negb (truthy group_regex1)
        && has_option (parser self) (section self) "parallel_class"
     then
       let! b := of_outcome (getboolean (parser self) (section self) "parallel_class") in
       ret (if b then Some parallel_class_pattern else group_regex1)
     else ret group_regex1) in
  if negb (truthy group_regex2)
     && has_option (parser self) (section self) "group_regex"
  then
    let! g := of_outcome (get (parser self) (section self) "group_regex") in
    ret (Some g)
  else ret group_regex2.

(** Lines 159-165: the classifier, when there is a pattern.  The pattern
    is compiled when the closure is defined.  [PatternNotCompiled] stands
    for [re.error] and for a pattern [Re.re_compile] does not read. *)
Definition make_group_callback (group_regex : option string)
    : M (Heap C) (option (string -> option string)) :=
  if truthy group_regex then
    match Re.re_compile (default "" group_regex) with
    | Some regex => ret (Some (group_callback regex))
    | None => raise (PatternNotCompiled (default "" group_regex))
    end
  else ret None.

(** [TestrConf.get_run_command]; lines 141-142 decide the quoting of the
    interpreter and line 167 asks the gateway for the repository. *)
Definition get_run_command (pf : Platform) (self : TestrConf) (args : RunArgs)
    : M (Heap C) (TestProcessorFixture (Repository C)) :=
  let! test_path := resolve_test_path self (test_path args) in
  let! top_dir := resolve_top_dir self (top_dir args) in
  let test_path := _sanitize_path pf test_path in
  let top_dir := _sanitize_path pf top_dir in
  let! python := resolve_python pf in
  let python :=
    if path_exists pf (quoted python) then quoted python else python in
  let command := command_template python top_dir test_path in
  let listopt := "--list" in
  let idoption := "--load-list $IDFILE" in
  let! group_regex := resolve_group_regex self args in
  let! group_callback := make_group_callback group_regex in
  let! repository := get_repo_open (repo_url args) in
  ret {| f_test_ids := test_ids args;
         f_cmd_template := command;
         f_listopt := listopt;
         f_idoption := idoption;
         f_repository := repository;
         f_test_filters := regexes args;
         f_group_callback := group_callback;
         f_serial := serial args;
         f_worker_path := worker_path args;
         f_concurrency := concurrency args;
         f_exclude_list := exclude_list args;
         f_exclude_regex := exclude_regex args;
         f_include_list := include_list args;
         f_randomize := randomize args |}.

End ConfigFile.

(** ** [stestr/commands/init.py] *)

Section Commands.
Variable C : Collaborators.

Definition sql_deprecation_message : string :=
  "WARNING: The sql repository type is deprecated and will be "
  +:+ "removed in the 4.0.0 release. Instead use the file "
  +:+ "repository type" +:+ String LF EmptyString.

Definition already_exists_message (repo_path : string) : string :=
  "The specified repository directory " +:+ repo_path
  +:+ " already exists. "
  +:+ "Please check if the repository already exists or "
  +:+ "select a different path" +:+ String LF EmptyString.

(** [init(repo_type, repo_url)].  The value is what the Python function
    returns: [Some 1] for [return 1], [None] when the body ends without a
    [return]. *)
Definition init (repo_type : string) (repo_url : option string)
    : M (Heap C) (option Z) :=
  (if String.eqb repo_type "sql"
   then stderr_write sql_deprecation_message ;;
        lift (warnings_warn C sql_deprecation_message)
   else ret tt) ;;
  try_except
    (get_repo_initialise C repo_type repo_url ;; ret None)
    (fun e =>
       match e with
       | OSError errno =>
           if negb (bool_decide (errno = Some EEXIST)) then None
           else Some (
             let repo_path := if truthy repo_url then default "" repo_url
                              else "./stestr" in
             stdout_write (already_exists_message repo_path) ;;
             ret (Some 1%Z))
       | _ => None
       end).

(** The options of the application the commands read ([self.app_args]). *)
Record AppArgs : Type := {
  app_repo_type : string;
  app_repo_url : option string;
  app_user_config : option string
}.

(** [Init.take_action]: the value of [init] is dropped, the method ends
    without a [return]. *)
Definition Init_take_action (app_args : AppArgs) : M (Heap C) (option Z) :=
  init (app_repo_type app_args) (app_repo_url app_args) ;;
  ret None.

(** ** [stestr/commands/last.py] *)

(** The parsed options of [last]. *)
Record LastArgs : Type := {
  subunit : bool;
  no_subunit_trace : bool;
  force_subunit_trace : bool;
  color : bool;
  suppress_attachments : bool;
  all_attachments : bool;
  show_binary_attachments : bool
}.

Definition mutually_exclusive_message : string :=
  "The --suppress-attachments and --all-attachments "
  +:+ "options are mutually exclusive, you can not use both "
  +:+ "at the same time".

(** [last(repo_url, subunit_out, pretty_out, color, stdout,
    suppress_attachments, all_attachments, show_binary_attachments)] *)
Definition last (repo_url : option string) (subunit_out pretty_out color
    suppress_attachments all_attachments show_binary_attachments : bool)
    : M (Heap C) Z :=
  let! opened :=
    try_except
      (let! repo := get_repo_open C repo_url in ret (inl repo))
      (fun e =>
         match e with
         | RepositoryNotFound str_e =>
             Some (stdout_write (str_e +:+ String LF EmptyString) ;;
                   ret (inr 1%Z))
         | _ => None
         end) in
  match opened with
  | inr code => ret code
  | inl repo =>
  let! loaded :=
    try_except
      (let! latest_run := lift (repo_get_latest_run C repo) in
       ret (inl latest_run))
      (fun e =>
         match e with
         | KeyError str_e =>
             Some (stdout_write (str_e +:+ String LF EmptyString) ;;
                   ret (inr 1%Z))
         | _ => None
         end) in
  match loaded with
  | inr code => ret code
  | inl latest_run =>
  if subunit_out then
    let! stream := lift (run_get_subunit_stream C latest_run) in
    lift (output_stream C stream) ;;
    ret 0%Z
  else
    let! case := lift (run_get_test C latest_run) in
    let! previous_run :=
      try_except
        (let! latest := lift (repo_latest_id C repo) in
         let! run := lift (repo_get_test_run C repo (latest - 1)%Z) in
         ret (Some run))
        (fun e =>
           match e with
           | KeyError _ => Some (ret None)
           | _ => None
           end) in
    let! failed :=
      (if negb pretty_out then
         let! output_result := lift (CLITestResult C latest_run previous_run) in
         let! summary := lift (get_summary C output_result) in
         lift (startTestRun C output_result) ;;
         try_finally
           (lift (case_run C case output_result))
           (lift (stopTestRun C output_result)) ;;
         let! ok := lift (wasSuccessful C summary) in
         ret (negb ok)
       else
         let! stream := lift (run_get_subunit_stream C latest_run) in
         lift (subunit_trace_trace C stream color suppress_attachments
                 all_attachments show_binary_attachments)) in
    if (failed : bool) then ret 1%Z else ret 0%Z
  end
  end.

(** [d.get(key, False)] and [d.get(key)] on a dictionary of flags: both are
    false when the key is missing. *)
Definition dict_get (d : gmap string bool) (key : string) : bool :=
  default false (d !! key).

(** [getattr(user_conf, 'last', False)]: the [last] property when there is
    a user configuration. *)
Definition getattr_last (user_conf : option UserConfig)
    : option (gmap string bool) :=
  match user_conf with
  | Some uc => uc_last uc
  | None => None
  end.

(** Truth value of an optional dictionary ([None] and [{}] are false). *)
Definition truthy_dict (d : option (gmap string bool)) : bool :=
  match d with
  | Some m => negb (bool_decide (m = ∅))
  | None => false
  end.

(** [Last.take_action] *)
Definition Last_take_action (app_args : AppArgs) (args : LastArgs)
    : M (Heap C) Z :=
  let! user_conf := lift (get_user_config C (app_user_config app_args)) in
  (if suppress_attachments args && all_attachments args
   then print mutually_exclusive_message ;; sys_exit (ExitCode 1)
   else ret tt) ;;
  let! settings :=
    (if truthy_dict (getattr_last user_conf) then
       let conf_last := default ∅ (getattr_last user_conf) in
       let pretty_out :=
         if negb (dict_get conf_last "no-subunit-trace")
         then (if negb (no_subunit_trace args) then true else false)
         else false in
       let pretty_out := force_subunit_trace args || pretty_out in
       let color := color args || dict_get conf_last "color" in
       match user_conf ≫= uc_run with
       | None =>
           raise (AttributeError "'NoneType' object has no attribute 'get'")
       | Some conf_run =>
           let suppress_attachments_conf := dict_get conf_run "suppress-attachments" in
           let all_attachments_conf := dict_get conf_run "all-attachments" in
           if negb (suppress_attachments args) && negb (all_attachments args)
           then ret (pretty_out, color,
                     suppress_attachments_conf, all_attachments_conf)
           else if suppress_attachments args
           then ret (pretty_out, color, suppress_attachments args, false)
           else ret (pretty_out, color, false, all_attachments args)
       end
     else
       ret (force_subunit_trace args || negb (no_subunit_trace args),
            color args,
            suppress_attachments args, all_attachments args)) in
  let '(pretty_out, color, suppress_attachments, all_attachments) := settings in
  last (app_repo_url app_args) (subunit args) pretty_out color
       suppress_attachments all_attachments (show_binary_attachments args).

End Commands.

(** ** Vocabulary of the properties *)

(** The number of consecutive backslashes a path ends in.  The run found
    in the tail extends over the head only when it is the whole tail. *)
Fixpoint trailing_backslashes (s : string) : nat :=
  match s with
  | EmptyString => 0
  | String c r =>
      let n := trailing_backslashes r in
      if Nat.eqb n (String.length r) && Ascii.eqb c backslash then S n else n
  end.

(** [n] backslashes. *)
Fixpoint backslashes (n : nat) : string :=
  match n with
  | O => EmptyString
  | S n' => String backslash (backslashes n')
  end.

(** Whether the look-behind [(?<=[^\\])] holds after character [prev]. *)
Definition after_non_backslash (prev : option ascii) : bool :=
  match prev with
  | Some p => negb (Ascii.eqb p backslash)
  | None => false
  end.

(** What replacing every match of [_escape_trailing_backslash_re] by two
    backslashes comes to, read off the pattern: a backslash that follows
    another character than a backslash and stands where [$] matches is
    doubled. *)
Fixpoint escape_scan (prev : option ascii) (s : string) : string :=
  match s with
  | EmptyString => EmptyString
  | String c s' =>
      if after_non_backslash prev && Ascii.eqb c backslash && Re.at_dollar s'
      then String backslash (String backslash (escape_scan (Some c) s'))
      else String c (escape_scan (Some c) s')
  end.

(** [s] ends with [suffix] ([str.endswith]). *)
Fixpoint endswith (s suffix : string) : bool :=
  String.eqb s suffix ||
  match s with
  | String _ s' => endswith s' suffix
  | EmptyString => false
  end.

(** Whether some position of [s] is matched by the pattern. *)
Fixpoint has_escape_site (prev : option ascii) (s : string) : bool :=
  match s with
  | EmptyString => false
  | String c s' =>
      (after_non_backslash prev && Ascii.eqb c backslash && Re.at_dollar s')
      || has_escape_site (Some c) s'
  end.

(** Whether a test id contains a dot. *)
Fixpoint contains_dot (s : string) : bool :=
  match s with
  | EmptyString => false
  | String c s' => Ascii.eqb c dot || contains_dot s'
  end.

(** The text after the first dot of [s], if it has one. *)
Fixpoint after_first_dot (s : string) : option string :=
  match s with
  | EmptyString => None
  | String c s' => if Ascii.eqb c dot then Some s' else after_first_dot s'
  end.

(** The text after the last dot of [s]; [s] itself when it has none. *)
Fixpoint after_last_dot (s : string) : string :=
  match s with
  | EmptyString => EmptyString
  | String c s' =>
      if contains_dot s' then after_last_dot s'
      else if Ascii.eqb c dot then s' else s
  end.

(** The prefix of [s] up to and including its last dot; empty when [s] has
    no dot. *)
Fixpoint dotted_prefix (s : string) : string :=
  match s with
  | EmptyString => EmptyString
  | String c s' =>
      if Ascii.eqb c dot || contains_dot s'
      then String c (dotted_prefix s') else EmptyString
  end.

(** A platform whose separator is the backslash, and one where it is not. *)
Definition windows : Platform := {|
  os_sep := "\";
  sys_platform := "win32";
  sys_executable := Some "C:\Python39\python.exe";
  environ_PYTHON := None;
  path_exists := fun _ => false
|}.

Definition posix : Platform := {|
  os_sep := "/";
  sys_platform := "linux";
  sys_executable := Some "/usr/bin/python3";
  environ_PYTHON := None;
  path_exists := fun _ => false
|}.


Definition not_dot : Re.regex := Re.Chr (Re.cs_not [dot]).

(** Whether a path contains a space or a tab. *)
Fixpoint contains_whitespace (s : string) : bool :=
  match s with
  | EmptyString => false
  | String c s' =>
      Ascii.eqb c " " || Ascii.eqb c "009" || contains_whitespace s'
  end.

(** [pre +:+ part +:+ post] for some [pre] and [post]. *)
Definition contains (s part : string) : Prop :=
  exists pre post, s = pre +:+ part +:+ post.

(** The part of [last] that computes [failed], for a run that was loaded. *)
Definition render_failed (C : Collaborators) (repo : Repository C)
    (latest_run : Run C) (pretty_out color suppress_attachments
    all_attachments show_binary_attachments : bool) : M (Heap C) bool :=
  let! case := lift (run_get_test C latest_run) in
  let! previous_run :=
    try_except
      (let! latest := lift (repo_latest_id C repo) in
       let! run := lift (repo_get_test_run C repo (latest - 1)%Z) in
       ret (Some run))
      (fun e =>
         match e with
         | KeyError _ => Some (ret None)
         | _ => None
         end) in
  if negb pretty_out then
    let! output_result := lift (CLITestResult C latest_run previous_run) in
    let! summary := lift (get_summary C output_result) in
    lift (startTestRun C output_result) ;;
    try_finally
      (lift (case_run C case output_result))
      (lift (stopTestRun C output_result)) ;;
    let! ok := lift (wasSuccessful C summary) in
    ret (negb ok)
  else
    let! stream := lift (run_get_subunit_stream C latest_run) in
    lift (subunit_trace_trace C stream color suppress_attachments
            all_attachments show_binary_attachments).

(** The world once the store is open, with the streams and heap [sy]. *)
Definition loaded_world {Heap : Type} (w : World Heap)
    (repo_url : option string) (sy : Sys Heap) : World Heap :=
  {| w_sys := sy;
     w_gateway_calls := w_gateway_calls w ++ [GetRepoOpen repo_url] |}.

(** [sy] after [text] went to the output stream. *)
Definition printed {Heap : Type} (sy : Sys Heap) (text : string) : Sys Heap :=
  {| stdout := stdout sy +:+ text; stderr := stderr sy; heap := heap sy |}.

(** ** A small store and its renderers

    Concrete collaborators on which the commands can be run: a store per
    location, each a list of runs, and two renderers.  The modules they
    stand for ([stestr.repository], [stestr.results], [stestr.subunit_trace],
    [stestr.output], [stestr.user_config]) are not among the sources; what
    is defined here follows the specification's description of them. *)

Module Demo.

Inductive status : Type :=
| Success | Failure | Error | Skip | ExpectedFailure | UnexpectedSuccess.

(** Modelled from the spec: the success predicate of the result collector
    (stestr/results.py is not among the sources) is false whenever a
    failure, an error or an unexpected success is recorded; skips and
    expected failures do not count against success. *)
Definition counts_against_success (st : status) : bool :=
  match st with
  | Failure | Error | UnexpectedSuccess => true
  | Success | Skip | ExpectedFailure => false
  end.

Definition status_name (st : status) : string :=
  match st with
  | Success => "ok" | Failure => "FAILED" | Error => "ERROR"
  | Skip => "SKIPPED" | ExpectedFailure => "XFAIL"
  | UnexpectedSuccess => "UXSUCCESS"
  end.

Record StoredRun : Type := {
  run_id : Z;
  run_results : list (string * status)
}.

(** The stores by location, and what the result collector has recorded. *)
Record DemoHeap : Type := {
  stores : gmap string (list StoredRun);
  recorded : list status
}.

(** Modelled from the spec: the location of a store is the one given,
    [.stestr] under the current directory when none is (the repository
    gateway, stestr/repository/util.py, is missing). *)
Definition location (repo_url : option string) : string :=
  default ".stestr" repo_url.

Definition with_heap {A} (r : outcome A) (h : DemoHeap) (sy : Sys DemoHeap)
    : outcome A * Sys DemoHeap :=
  (r, {| stdout := stdout sy; stderr := stderr sy; heap := h |}).

Definition with_stdout {A} (r : outcome A) (text : string) (sy : Sys DemoHeap)
    : outcome A * Sys DemoHeap :=
  (r, {| stdout := stdout sy +:+ text; stderr := stderr sy; heap := heap sy |}).

(** Modelled from the spec: opening fails with [RepositoryNotFound] when
    no store exists at the location (stestr/repository/util.py is
    missing). *)
Definition open (repo_url : option string) : ext DemoHeap (list StoredRun) :=
  fun sy =>
    match stores (heap sy) !! location repo_url with
    | Some runs => (Ret runs, sy)
    | None =>
        (Raise (RepositoryNotFound
                  ("No repository found in " +:+ location repo_url)), sy)
    end.

(** Modelled from the spec: creating a store fails when the location
    exists already, which [init] sees as [OSError] with [EEXIST]
    (stestr/repository/util.py is missing). *)
Definition initialise (repo_type : string) (repo_url : option string)
    : ext DemoHeap (list StoredRun) :=
  fun sy =>
    match stores (heap sy) !! location repo_url with
    | Some _ => (Raise (OSError (Some EEXIST)), sy)
    | None =>
        with_heap (Ret [])
          {| stores := <[location repo_url := []]> (stores (heap sy));
             recorded := recorded (heap sy) |} sy
    end.

(** Modelled from the spec: the latest run, [KeyError] when the store has
    no run (the repository classes are missing). *)
Definition get_latest_run (repo : list StoredRun) : ext DemoHeap StoredRun :=
  fun sy =>
    match List.last (map Some repo) None with
    | Some run => (Ret run, sy)
    | None => (Raise (KeyError "No tests in repository"), sy)
    end.

(** Modelled from the spec: the run of a given identifier, [KeyError]
    when there is none (the repository classes are missing). *)
Definition get_test_run (repo : list StoredRun) (id : Z)
    : ext DemoHeap StoredRun :=
  fun sy =>
    match List.find (fun run => Z.eqb (run_id run) id) repo with
    | Some run => (Ret run, sy)
    | None => (Raise (KeyError "No such run."), sy)
    end.

(** Modelled from the spec: the identifier of the latest run (the
    repository classes are missing). *)
Definition latest_id (repo : list StoredRun) : ext DemoHeap Z :=
  fun sy =>
    match List.last (map Some repo) None with
    | Some run => (Ret (run_id run), sy)
    | None => (Raise (KeyError "No tests in repository"), sy)
    end.

Definition render_line (r : string * status) : string :=
  fst r +:+ " ... " +:+ status_name (snd r) +:+ String LF "".

Definition render_lines (rs : list (string * status)) : string :=
  fold_right (fun r acc => render_line r +:+ acc) "" rs.

(** Modelled from the spec: the streaming renderer's verdict, true when
    the run had failures (stestr/subunit_trace.py is missing). *)
Definition had_failures (rs : list (string * status)) : bool :=
  existsb (fun r => counts_against_success (snd r)) rs.

(** Modelled from the spec: the collaborators over this store.  The raw
    copy and the streaming renderer write one line per test; the structured
    renderer records the outcomes and judges them with
    [counts_against_success]; no user configuration is found. *)
Definition collaborators : Collaborators := {|
  Heap := DemoHeap;
  Repository := list StoredRun;
  Run := StoredRun;
  Stream := list (string * status);
  TestCase := list (string * status);
  Collector := unit;
  Summary := unit;
  util_get_repo_open := open;
  util_get_repo_initialise := initialise;
  repo_get_latest_run := get_latest_run;
  repo_get_test_run := get_test_run;
  repo_latest_id := latest_id;
  run_get_subunit_stream := fun run sy => (Ret (run_results run), sy);
  run_get_test := fun run sy => (Ret (run_results run), sy);
  output_stream := fun stream sy => with_stdout (Ret tt) (render_lines stream) sy;
  CLITestResult := fun _ _ sy =>
    with_heap (Ret tt)
      {| stores := stores (heap sy); recorded := [] |} sy;
  get_summary := fun _ sy => (Ret tt, sy);
  startTestRun := fun _ sy => (Ret tt, sy);
  case_run := fun case _ sy =>
    with_heap (Ret tt)
      {| stores := stores (heap sy);
         recorded := recorded (heap sy) ++ map snd case |} sy;
  stopTestRun := fun _ sy =>
    with_stdout (Ret tt)
      (if existsb counts_against_success (recorded (heap sy))
       then "FAILED" else "PASSED") sy;
  wasSuccessful := fun _ sy =>
    (Ret (negb (existsb counts_against_success (recorded (heap sy)))), sy);
  subunit_trace_trace := fun stream _ _ _ _ sy =>
    with_stdout (Ret (had_failures stream)) (render_lines stream) sy;
  get_user_config := fun _ sy => (Ret None, sy);
  warnings_warn := fun _ sy => (Ret tt, sy)
|}.

Definition world (reg : gmap string (list StoredRun)) : World DemoHeap := {|
  w_sys := {| stdout := ""; stderr := "";
              heap := {| stores := reg; recorded := [] |} |};
  w_gateway_calls := []
|}.

(** A store whose only run has nothing but failing tests. *)
Definition failing_run : StoredRun := {|
  run_id := 0;
  run_results := [("pkg.tests.TestA.test_one", Failure);
                  ("pkg.tests.TestA.test_two", Error)]
|}.

Definition failing_world : World DemoHeap :=
  world {[ ".stestr" := [failing_run] ]}.

(** No store anywhere. *)
Definition fresh_world : World DemoHeap := world ∅.

(** A store at the default location, without runs. *)
Definition initialised_world : World DemoHeap := world {[ ".stestr" := [] ]}.

(** A configuration file with [test_path] and nothing else. *)
Definition conf_with_test_path : TestrConf := {|
  parser := {|
    has_option := fun _ option => String.eqb option "test_path";
    get := fun _ option =>
      if String.eqb option "test_path" then Ret "./tests"
      else Raise (OtherError "NoOptionError");
    getboolean := fun _ _ => Raise (OtherError "NoOptionError")
  |};
  config_file := ".stestr.conf";
  section := "DEFAULT"
|}.

(** A configuration file without options. *)
Definition empty_conf : TestrConf := {|
  parser := {|
    has_option := fun _ _ => false;
    get := fun _ _ => Raise (OtherError "NoOptionError");
    getboolean := fun _ _ => Raise (OtherError "NoOptionError")
  |};
  config_file := ".stestr.conf";
  section := "DEFAULT"
|}.

(** An interpreter installed under a directory with a space in its name;
    no file is named by that path between double quotes. *)
Definition spaced_python : Platform := {|
  os_sep := "/";
  sys_platform := "linux";
  sys_executable := Some "/opt/my python/bin/python3";
  environ_PYTHON := None;
  path_exists := fun p => String.eqb p "/opt/my python/bin/python3"
|}.

(** Both [parallel_class] and a pattern of the caller's. *)
Definition parallel_class_and_pattern : RunArgs := {|
  test_ids := None; regexes := None; test_path := None; top_dir := None;
  group_regex := Some "^(foo\.)"; repo_url := None; serial := false;
  worker_path := None; concurrency := 0%Z; exclude_list := None;
  include_list := None; exclude_regex := None; randomize := false;
  parallel_class := Some true
|}.

Definition file_app : AppArgs := {|
  app_repo_type := "file"; app_repo_url := None; app_user_config := None
|}.

(** [last --suppress-attachments --all-attachments] *)
Definition both_attachment_flags : LastArgs := {|
  subunit := false; no_subunit_trace := false; force_subunit_trace := false;
  color := false; suppress_attachments := true; all_attachments := true;
  show_binary_attachments := false
|}.

End Demo.

(** ** Vocabulary of the further properties *)

(** An action that adds exactly the calls [l] to the log of the gateway,
    however it ends. *)
Definition adds_calls {Heap A : Type} (l : list gateway_call)
    (c : M Heap A) : Prop :=
  forall w, w_gateway_calls (snd (c w)) = w_gateway_calls w ++ l.

(** An action that leaves the world as it is, however it ends. *)
Definition pure_step {Heap A : Type} (c : M Heap A) : Prop :=
  forall w, snd (c w) = w.

(** Lines 170-187 of [last]: the rendering, once the test of the latest
    run and the previous run (or [None]) are at hand. *)
Definition render_with (C : Collaborators) (latest_run : Run C)
    (case : TestCase C) (previous_run : option (Run C))
    (pretty_out color suppress_attachments all_attachments
     show_binary_attachments : bool) : M (Heap C) bool :=
  if negb pretty_out then
    let! output_result := lift (CLITestResult C latest_run previous_run) in
    let! summary := lift (get_summary C output_result) in
    lift (startTestRun C output_result) ;;
    try_finally
      (lift (case_run C case output_result))
      (lift (stopTestRun C output_result)) ;;
    let! ok := lift (wasSuccessful C summary) in
    ret (negb ok)
  else
    let! stream := lift (run_get_subunit_stream C latest_run) in
    lift (subunit_trace_trace C stream color suppress_attachments
            all_attachments show_binary_attachments).

(** The exit status [last] derives from the failure signal. *)
Definition status_of (failed : bool) : Z := if failed then 1%Z else 0%Z.

(** [w] with the streams and heap [sy], the log of gateway calls kept. *)
Definition with_sys {Heap : Type} (w : World Heap) (sy : Sys Heap)
    : World Heap :=
  {| w_sys := sy; w_gateway_calls := w_gateway_calls w |}.

(** [sy] after [text] went to the error stream. *)
Definition warned {Heap : Type} (sy : Sys Heap) (text : string) : Sys Heap :=
  {| stdout := stdout sy; stderr := stderr sy +:+ text; heap := heap sy |}.

(** The world once [init] has asked the gateway to create the store. *)
Definition initialised_by {Heap : Type} (w : World Heap)
    (repo_type : string) (repo_url : option string) (sy : Sys Heap)
    : World Heap :=
  {| w_sys := sy;
     w_gateway_calls :=
       w_gateway_calls w ++ [GetRepoInitialise repo_type repo_url] |}.

(** Collaborators that can be made to fail, over the same store. *)
Module Faulty.

Record Faults : Type := {
  open_error : option exn;          (* [util.get_repo_open] raises *)
  latest_error : option exn;        (* [repo.get_latest_run] raises *)
  copy_error : option exn;          (* [output.output_stream] raises *)
  case_run_error : option exn;      (* [case.run] raises *)
  previous_error : option exn;      (* [repo.get_test_run] raises *)
  initialise_error : option exn;    (* [util.get_repo_initialise] raises *)
  warn_error : option exn;          (* [warnings.warn] raises *)
  user_conf : option UserConfig     (* what [get_user_config] finds *)
}.

Definition no_faults : Faults := {|
  open_error := None; latest_error := None;
  copy_error := None; case_run_error := None; previous_error := None;
  initialise_error := None; warn_error := None; user_conf := None
|}.

Definition or_raise {A} (err : option exn)
    (c : ext Demo.DemoHeap A) : ext Demo.DemoHeap A :=
  fun sy =>
    match err with
    | Some e => (Raise e, sy)
    | None => c sy
    end.

(** Modelled from the spec: the collaborators of [Demo], each of the
    operations above raising the given exception when one is given. *)
Definition collaborators (f : Faults) : Collaborators := {|
  Heap := Demo.DemoHeap;
  Repository := list Demo.StoredRun;
  Run := Demo.StoredRun;
  Stream := list (string * Demo.status);
  TestCase := list (string * Demo.status);
  Collector := unit;
  Summary := unit;
  util_get_repo_open := fun repo_url =>
    or_raise (open_error f) (Demo.open repo_url);
  util_get_repo_initialise := fun repo_type repo_url =>
    or_raise (initialise_error f) (Demo.initialise repo_type repo_url);
  repo_get_latest_run := fun repo =>
    or_raise (latest_error f) (Demo.get_latest_run repo);
  repo_get_test_run := fun repo id =>
    or_raise (previous_error f) (Demo.get_test_run repo id);
  repo_latest_id := Demo.latest_id;
  run_get_subunit_stream := run_get_subunit_stream Demo.collaborators;
  run_get_test := run_get_test Demo.collaborators;
  output_stream := fun stream =>
    or_raise (copy_error f) (output_stream Demo.collaborators stream);
  CLITestResult := CLITestResult Demo.collaborators;
  get_summary := get_summary Demo.collaborators;
  startTestRun := startTestRun Demo.collaborators;
  case_run := fun case collector =>
    or_raise (case_run_error f) (case_run Demo.collaborators case collector);
  stopTestRun := stopTestRun Demo.collaborators;
  wasSuccessful := wasSuccessful Demo.collaborators;
  subunit_trace_trace := subunit_trace_trace Demo.collaborators;
  get_user_config := fun _ sy => (Ret (user_conf f), sy);
  warnings_warn := fun _ => or_raise (warn_error f) (fun sy => (Ret tt, sy))
|}.

(** One fault at a time. *)
Definition open_fails (e : exn) : Faults := {|
  open_error := Some e; latest_error := None;
  copy_error := None; case_run_error := None; previous_error := None;
  initialise_error := None; warn_error := None; user_conf := None
|}.

Definition latest_fails (e : exn) : Faults := {|
  open_error := None; latest_error := Some e;
  copy_error := None; case_run_error := None; previous_error := None;
  initialise_error := None; warn_error := None; user_conf := None
|}.

Definition copy_fails (e : exn) : Faults := {|
  open_error := None; latest_error := None;
  copy_error := Some e; case_run_error := None; previous_error := None;
  initialise_error := None; warn_error := None; user_conf := None
|}.

Definition case_run_fails (e : exn) : Faults := {|
  open_error := None; latest_error := None;
  copy_error := None; case_run_error := Some e; previous_error := None;
  initialise_error := None; warn_error := None; user_conf := None
|}.

Definition previous_fails (e : exn) : Faults := {|
  open_error := None; latest_error := None;
  copy_error := None; case_run_error := None; previous_error := Some e;
  initialise_error := None; warn_error := None; user_conf := None
|}.

Definition initialise_fails (e : exn) : Faults := {|
  open_error := None; latest_error := None;
  copy_error := None; case_run_error := None; previous_error := None;
  initialise_error := Some e; warn_error := None; user_conf := None
|}.

Definition warn_fails (e : exn) : Faults := {|
  open_error := None; latest_error := None;
  copy_error := None; case_run_error := None; previous_error := None;
  initialise_error := None; warn_error := Some e; user_conf := None
|}.

Definition with_user_conf (uc : UserConfig) : Faults := {|
  open_error := None; latest_error := None;
  copy_error := None; case_run_error := None; previous_error := None;
  initialise_error := None; warn_error := None; user_conf := Some uc
|}.

(** A store whose only run passed. *)
Definition passing_run : Demo.StoredRun := {|
  Demo.run_id := 0;
  Demo.run_results := [("pkg.tests.TestA.test_one", Demo.Success);
                       ("pkg.tests.TestA.test_two", Demo.Skip)]
|}.

Definition passing_world : World Demo.DemoHeap :=
  Demo.world {[ ".stestr" := [passing_run] ]}.

(** [last --subunit], and the same with every rendering flag that can go
    with it. *)
Definition raw_plain : LastArgs := {|
  subunit := true; no_subunit_trace := false; force_subunit_trace := false;
  color := false; suppress_attachments := false; all_attachments := false;
  show_binary_attachments := false
|}.

Definition raw_decorated : LastArgs := {|
  subunit := true; no_subunit_trace := true; force_subunit_trace := true;
  color := true; suppress_attachments := true; all_attachments := false;
  show_binary_attachments := true
|}.

(** [last --all-attachments] *)
Definition all_attachments_only : LastArgs := {|
  subunit := false; no_subunit_trace := false; force_subunit_trace := false;
  color := false; suppress_attachments := false; all_attachments := true;
  show_binary_attachments := false
|}.

(** A user configuration that asks [last] for colour and no trace, and
    runs for suppressed attachments. *)
Definition profile : UserConfig := {|
  uc_last := Some {[ "color" := true; "no-subunit-trace" := true ]};
  uc_run := Some {[ "suppress-attachments" := true ]}
|}.

End Faulty.

(** The settings of the [last] section of a user configuration that take
    effect: none without a configuration or without that section. *)
Definition profile_last (user_conf : option UserConfig) : gmap string bool :=
  default ∅ (getattr_last user_conf).

(** The settings of the [run] section that take effect in [last]: they are
    read only when the [last] section is there and not empty. *)
Definition profile_run (user_conf : option UserConfig) : gmap string bool :=
  if truthy_dict (getattr_last user_conf)
  then default ∅ (user_conf ≫= uc_run) else ∅.

(** Lines 166-169 of [last]: the run before the latest one, [None] when
    the lookup raises [KeyError]. *)
Definition lookup_previous (C : Collaborators) (repo : Repository C)
    : M (Heap C) (option (Run C)) :=
  try_except
    (let! latest := lift (repo_latest_id C repo) in
     let! run := lift (repo_get_test_run C repo (latest - 1)%Z) in
     ret (Some run))
    (fun e =>
       match e with
       | KeyError _ => Some (ret None)
       | _ => None
       end).

(** Whether [last] catches the exception when opening the store. *)
Definition is_repository_not_found (e : exn) : bool :=
  match e with
  | RepositoryNotFound _ => true
  | _ => false
  end.

Definition is_key_error (e : exn) : bool :=
  match e with
  | KeyError _ => true
  | _ => false
  end.

(** Lower case of an ASCII letter ([str.lower] on ASCII text). *)
Definition lower_ascii (c : ascii) : ascii :=
  let n := nat_of_ascii c in
  if Nat.leb 65 n && Nat.leb n 90 then ascii_of_nat (n + 32) else c.

Fixpoint lower (s : string) : string :=
  match s with
  | EmptyString => EmptyString
  | String c s' => String (lower_ascii c) (lower s')
  end.

(** The values [configparser] reads as booleans, in any case. *)
Definition boolean_state (v : string) : option bool :=
  let v := lower v in
  if existsb (String.eqb v) ["1"; "yes"; "true"; "on"] then Some true
  else if existsb (String.eqb v) ["0"; "no"; "false"; "off"] then Some false
  else None.

(** A configuration file given by the options of its section: what the
    three queries of [configparser] answer for it.  [getboolean] raises on
    a value that is not a boolean state. *)
Definition conf_of (options : gmap string string) : TestrConf := {|
  parser := {|
    has_option := fun _ option => bool_decide (is_Some (options !! option));
    get := fun _ option =>
      match options !! option with
      | Some v => Ret v
      | None => Raise (OtherError "NoOptionError")
      end;
    getboolean := fun _ option =>
      match options !! option with
      | Some v =>
          match boolean_state v with
          | Some b => Ret b
          | None => Raise (OtherError "ValueError")
          end
      | None => Raise (OtherError "NoOptionError")
      end
  |};
  config_file := ".stestr.conf";
  section := "DEFAULT"
|}.

(** The arguments of a call that gives [test_path], [top_dir] and a
    pattern of its own. *)
Definition explicit_args : RunArgs := {|
  test_ids := Some ["pkg.tests.TestA.test_one"]; regexes := Some ["TestA"];
  test_path := Some "./pkg/tests"; top_dir := Some "./pkg";
  group_regex := Some "(pkg\.)"; repo_url := None; serial := true;
  worker_path := None; concurrency := 4%Z; exclude_list := None;
  include_list := None; exclude_regex := None; randomize := false;
  parallel_class := Some false
|}.

(** Another interpreter is named by [PYTHON]. *)
Definition posix_with_PYTHON : Platform := {|
  os_sep := "/";
  sys_platform := "linux";
  sys_executable := Some "/usr/bin/python3";
  environ_PYTHON := Some "/opt/venv/bin/python";
  path_exists := fun _ => false
|}.

Definition windows_with_PYTHON : Platform := {|
  os_sep := "\";
  sys_platform := "win32";
  sys_executable := Some "C:\Python39\python.exe";
  environ_PYTHON := Some "C:\venv\python.exe";
  path_exists := fun _ => false
|}.

(** No interpreter is known. *)
Definition no_interpreter : Platform := {|
  os_sep := "/";
  sys_platform := "linux";
  sys_executable := None;
  environ_PYTHON := None;
  path_exists := fun _ => false
|}.

(** [args] with another [group_regex] argument. *)
Definition with_group_regex (args : RunArgs) (g : option string) : RunArgs := {|
  test_ids := test_ids args; regexes := regexes args;
  test_path := test_path args; top_dir := top_dir args;
  group_regex := g; repo_url := repo_url args; serial := serial args;
  worker_path := worker_path args; concurrency := concurrency args;
  exclude_list := exclude_list args; include_list := include_list args;
  exclude_regex := exclude_regex args; randomize := randomize args;
  parallel_class := parallel_class args
|}.

(** A call on the backslash platform whose [test_path] ends in three
    backslashes. *)
Definition odd_run_args : RunArgs := {|
  test_ids := None; regexes := None; test_path := Some "C:\work\\\";
  top_dir := None; group_regex := None; repo_url := None; serial := false;
  worker_path := None; concurrency := 0%Z; exclude_list := None;
  include_list := None; exclude_regex := None; randomize := false;
  parallel_class := None
|}.
(** ** The monad *)

Section MonadFacts.
Context {Heap : Type}.
Implicit Types w : World Heap.

Lemma bind_ok {A B} (c : M Heap A) (k : A -> M Heap B) w a w' :
  c w = (Ret a, w') -> bind c k w = k a w'.
Proof. intros H. unfold bind. by rewrite H. Qed.

Lemma bind_raise {A B} (c : M Heap A) (k : A -> M Heap B) w e w' :
  c w = (Raise e, w') -> bind c k w = (Raise e, w').
Proof. intros H. unfold bind. by rewrite H. Qed.

Lemma bind_assoc {A B D} (c : M Heap A) (f : A -> M Heap B)
    (g : B -> M Heap D) w :
  bind (bind c f) g w = bind c (fun x => bind (f x) g) w.
Proof. unfold bind. by destruct (c w) as [[a|e] w']. Qed.

Lemma bind_ext {A B} (c : M Heap A) (f g : A -> M Heap B) w :
  (forall a w', f a w' = g a w') -> bind c f w = bind c g w.
Proof. intros H. unfold bind. by destruct (c w) as [[a|e] w']. Qed.

Lemma bind_congr {A B} (c1 c2 : M Heap A) (k1 k2 : A -> M Heap B) w :
  c1 w = c2 w -> (forall a w', k1 a w' = k2 a w') ->
  bind c1 k1 w = bind c2 k2 w.
Proof.
  intros Hc Hk. unfold bind. rewrite Hc. by destruct (c2 w) as [[a|e] w'].
Qed.

Lemma try_except_ok {A} (c : M Heap A) handler w a w' :
  c w = (Ret a, w') -> try_except c handler w = (Ret a, w').
Proof. intros H. unfold try_except. by rewrite H. Qed.

Lemma lift_eq {A} (c : ext Heap A) w r sy :
  c (w_sys w) = (r, sy) ->
  lift c w = (r, {| w_sys := sy; w_gateway_calls := w_gateway_calls w |}).
Proof. intros H. unfold lift. by rewrite H. Qed.

(** A collaborator's action leaves the log of gateway calls as it is. *)
Lemma lift_gateway_calls {A} (c : ext Heap A) w :
  w_gateway_calls (snd (lift c w)) = w_gateway_calls w.
Proof. unfold lift. by destruct (c (w_sys w)). Qed.

End MonadFacts.

(** ** [_sanitize_path] *)

Lemma rmatch_escape_trailing_backslash prev s k :
  Re.rmatch _escape_trailing_backslash_re prev s k =
  match s with
  | String c s' =>
      if after_non_backslash prev && Ascii.eqb c backslash && Re.at_dollar s'
      then k (Some c) s' else None
  | EmptyString => None
  end.
Proof.
  unfold _escape_trailing_backslash_re, after_non_backslash. cbn.
  destruct prev as [p|]; [|by destruct s].
  unfold Re.cs_mem; cbn.
  destruct (Ascii.eqb p backslash); cbn; [by destruct s|].
  destruct s as [|c s']; [done|].
  destruct (Ascii.eqb c backslash); cbn; [|done].
  by destruct (Re.at_dollar s').
Qed.

Lemma expand_template_source : Re.expand_template "\\\\" = "\\".
Proof. reflexivity. Qed.

Lemma sub_scan_escape prev s :
  Re.sub_scan _escape_trailing_backslash_re "\\" prev s 0 = escape_scan prev s.
Proof.
  revert prev. induction s as [|c s' IH]; intros prev.
  - cbn [Re.sub_scan]. by rewrite rmatch_escape_trailing_backslash.
  - cbn [Re.sub_scan escape_scan]. rewrite rmatch_escape_trailing_backslash.
    unfold Re.any_end.
    destruct (after_non_backslash prev && Ascii.eqb c backslash
              && Re.at_dollar s') eqn:Hm.
    + replace (String.length (String c s') - String.length s') with 1
        by (cbn [String.length]; lia).
      rewrite IH. apply andb_prop in Hm as [Hm _].
      apply andb_prop in Hm as [_ Hc]. apply Ascii.eqb_eq in Hc. by subst c.
    + by rewrite IH.
Qed.

Lemma sanitize_path_backslash pf path :
  os_sep pf = "\" -> _sanitize_path pf path = escape_scan None path.
Proof.
  intros Hsep. unfold _sanitize_path, Re.re_sub.
  rewrite Hsep, String.eqb_refl, expand_template_source.
  apply sub_scan_escape.
Qed.

Lemma at_dollar_cases s :
  Re.at_dollar s = true -> s = EmptyString \/ s = String LF EmptyString.
Proof.
  destruct s as [|c [|d s']]; cbn; try (by auto); try discriminate.
  intros H%Ascii.eqb_eq. subst c. by right.
Qed.

Lemma escape_scan_no_site prev s :
  has_escape_site prev s = false -> escape_scan prev s = s.
Proof.
  revert prev. induction s as [|c s' IH]; intros prev; [done|].
  cbn [has_escape_site escape_scan]. intros [Hh Ht]%orb_false_elim.
  by rewrite Hh, IH.
Qed.

Lemma trailing_backslashes_le s : trailing_backslashes s <= String.length s.
Proof.
  induction s as [|c s' IH]; cbn [trailing_backslashes String.length]; [lia|].
  destruct (_ && _); lia.
Qed.

Lemma trailing_backslashes_cons c s :
  trailing_backslashes (String c s) =
  if Nat.eqb (trailing_backslashes s) (String.length s) && Ascii.eqb c backslash
  then S (trailing_backslashes s) else trailing_backslashes s.
Proof. reflexivity. Qed.

Lemma append_cons c s t : String c s +:+ t = String c (s +:+ t).
Proof. reflexivity. Qed.

Lemma append_nil t : EmptyString +:+ t = t.
Proof. reflexivity. Qed.

Lemma append_assoc s t u : (s +:+ t) +:+ u = s +:+ (t +:+ u).
Proof.
  induction s as [|c s IH]; [done|]. rewrite !append_cons. by f_equal.
Qed.

Lemma length_append s t :
  String.length (s +:+ t) = String.length s + String.length t.
Proof.
  induction s as [|c s' IH]; [done|].
  rewrite append_cons. cbn [String.length]. by rewrite IH.
Qed.

Lemma length_backslashes n : String.length (backslashes n) = n.
Proof. induction n as [|n IH]; [done|]. cbn. by rewrite IH. Qed.

(** [trailing_backslashes] counts what its name says: a path made of [n]
    backslashes ends in [n], and so does any path followed by another
    character and [n] backslashes. *)
Lemma trailing_backslashes_all n : trailing_backslashes (backslashes n) = n.
Proof.
  induction n as [|n IH]; [done|].
  cbn [backslashes]. rewrite trailing_backslashes_cons, IH, length_backslashes.
  by rewrite Nat.eqb_refl, Ascii.eqb_refl.
Qed.

Lemma trailing_backslashes_after q c n :
  c <> backslash ->
  trailing_backslashes (q +:+ String c (backslashes n)) = n.
Proof.
  intros Hc. induction q as [|a q' IH].
  - rewrite append_nil, trailing_backslashes_cons, trailing_backslashes_all.
    rewrite (proj2 (Ascii.eqb_neq _ _) Hc). by rewrite andb_false_r.
  - rewrite append_cons, trailing_backslashes_cons, IH.
    rewrite length_append. cbn [String.length]. rewrite length_backslashes.
    rewrite (proj2 (Nat.eqb_neq _ _)) by lia. done.
Qed.

Lemma endswith_spec s suffix :
  endswith s suffix = true <-> exists q, s = q +:+ suffix.
Proof.
  split.
  - induction s as [|c s' IH]; cbn [endswith].
    + rewrite orb_false_r. intros ->%String.eqb_eq. by exists "".
    + intros [->%String.eqb_eq | [q ->]%IH]%orb_prop; [by exists ""|].
      by exists (String c q).
  - intros [q ->]. induction q as [|c q' IH].
    + rewrite append_nil. destruct suffix; cbn [endswith];
        by rewrite String.eqb_refl.
    + rewrite append_cons. cbn [endswith]. rewrite IH. apply orb_true_r.
Qed.

Example trailing_backslashes_examples :
  trailing_backslashes "C:\work" = 0 /\
  trailing_backslashes "C:\work\" = 1 /\
  trailing_backslashes "C:\work\\" = 2 /\
  trailing_backslashes "\\\" = 3.
Proof. repeat split; reflexivity. Qed.

Lemma at_dollar_trailing s :
  Re.at_dollar s = true -> trailing_backslashes s = 0.
Proof.
  intros [->| ->]%at_dollar_cases; reflexivity.
Qed.

(** A path with a match ends in no backslash, or in exactly one that is
    not the whole subject (unless the look-behind holds before it). *)
Lemma has_escape_site_trailing prev s :
  has_escape_site prev s = true ->
  trailing_backslashes s = 0 \/
  (trailing_backslashes s = 1 /\
   (String.length s = 1 -> after_non_backslash prev = true)).
Proof.
  revert prev. induction s as [|c s' IH]; intros prev; [done|].
  cbn [has_escape_site]. intros [Hh|Ht]%orb_prop.
  - apply andb_prop in Hh as [[Hp Hc]%andb_prop Hd].
    apply Ascii.eqb_eq in Hc. subst c.
    destruct (at_dollar_cases _ Hd) as [-> | ->]; [right|left]; by cbn.
  - pose proof (trailing_backslashes_le s') as Hle.
    rewrite trailing_backslashes_cons. cbn [String.length].
    destruct s' as [|d s'']; [done|].
    destruct (IH _ Ht) as [H0|[H1 Hlen]].
    + rewrite H0. cbn [String.length Nat.eqb andb]. by left.
    + rewrite H1. right.
      destruct (Nat.eqb 1 (String.length (String d s''))) eqn:He; cbn [andb].
      * apply Nat.eqb_eq in He. symmetry in He. specialize (Hlen He).
        cbn in Hlen. apply negb_true_iff in Hlen. rewrite Hlen.
        split; [done|]. cbn [String.length]. lia.
      * split; [done|]. cbn [String.length]. lia.
Qed.

Lemma endswith_cons c s suffix :
  endswith s suffix = true -> endswith (String c s) suffix = true.
Proof. intros H. cbn [endswith]. rewrite H. apply orb_true_r. Qed.

(** A path with a match ends in a backslash or in a backslash and a line
    feed. *)
Lemma has_escape_site_end prev s :
  has_escape_site prev s = true ->
  1 <= trailing_backslashes s \/
  endswith s (String backslash (String LF EmptyString)) = true.
Proof.
  revert prev. induction s as [|c s' IH]; intros prev; [done|].
  cbn [has_escape_site]. intros [Hh|Ht]%orb_prop.
  - apply andb_prop in Hh as [[Hp Hc]%andb_prop Hd].
    apply Ascii.eqb_eq in Hc. subst c.
    destruct (at_dollar_cases _ Hd) as [-> | ->]; [left|right]; by cbn.
  - destruct (IH _ Ht) as [H1|He].
    + left. rewrite trailing_backslashes_cons. destruct (_ && _); lia.
    + right. by apply endswith_cons.
Qed.

(** A path ending in exactly one backslash gets one more. *)
Lemma escape_scan_single prev s :
  trailing_backslashes s = 1 ->
  (String.length s = 1 -> after_non_backslash prev = true) ->
  escape_scan prev s = s +:+ String backslash EmptyString.
Proof.
  revert prev. induction s as [|c s' IH]; intros prev; [done|].
  rewrite trailing_backslashes_cons, append_cons. cbn [escape_scan String.length].
  destruct (Nat.eqb (trailing_backslashes s') (String.length s')) eqn:He;
    cbn [andb].
  - apply Nat.eqb_eq in He.
    destruct (Ascii.eqb_spec c backslash) as [->|Hc].
    + intros [= H0] Hprev. rewrite H0 in He. destruct s'; [|done].
      rewrite Hprev by done. by cbn.
    + intros H1 _. rewrite andb_false_r. cbn. f_equal.
      apply IH; [done|]. intros _. cbn. by apply negb_true_iff, Ascii.eqb_neq.
  - intros H1 _.
    assert (Re.at_dollar s' = false) as ->.
    { destruct (Re.at_dollar s') eqn:Hd; [|done].
      apply at_dollar_trailing in Hd. congruence. }
    rewrite andb_false_r. cbn. f_equal. apply IH; [done|].
    intros Hlen. rewrite H1, Hlen in He. done.
Qed.

Lemma at_dollar_escape_scan prev s :
  Re.at_dollar (escape_scan prev s) = Re.at_dollar s.
Proof.
  destruct s as [|a [|b s']]; [done| |].
  - cbn. destruct (Ascii.eqb_spec a backslash) as [->|Ha].
    + rewrite andb_true_r. destruct (after_non_backslash prev); by cbn.
    + by rewrite andb_false_r.
  - cbn [escape_scan].
    destruct (_ && _ && _); [reflexivity|].
    destruct (_ && _ && _); reflexivity.
Qed.

Lemma escape_scan_idempotent prev s :
  escape_scan prev (escape_scan prev s) = escape_scan prev s.
Proof.
  revert prev. induction s as [|c s' IH]; intros prev; [done|].
  cbn [escape_scan].
  destruct (after_non_backslash prev && Ascii.eqb c backslash
            && Re.at_dollar s') eqn:Hm.
  - apply andb_prop in Hm as [[Hp Hc]%andb_prop Hd].
    apply Ascii.eqb_eq in Hc. subst c.
    destruct (at_dollar_cases _ Hd) as [-> | ->]; cbn; by rewrite Hp.
  - cbn [escape_scan]. rewrite at_dollar_escape_scan, Hm. by rewrite IH.
Qed.

Lemma sanitize_path_other_separator pf path :
  os_sep pf <> "\" -> _sanitize_path pf path = path.
Proof.
  intros Hsep. unfold _sanitize_path.
  by destruct (String.eqb_spec (os_sep pf) "\").
Qed.

(** A path ending in three backslashes is left as it is, and a path ending
    in a backslash and a line feed, which ends in no backslash, is
    changed. *)
Lemma sanitize_path_odd_run_counterexample :
  os_sep windows = "\" /\
  Nat.odd (trailing_backslashes "C:\work\\\") = true /\
  _sanitize_path windows "C:\work\\\" = "C:\work\\\" /\
  _sanitize_path windows "C:\work\\\" <> "C:\work\\\" +:+ "\" /\
  trailing_backslashes ("C:\work\" +:+ String LF "") = 0 /\
  _sanitize_path windows ("C:\work\" +:+ String LF "")
    = "C:\work\\" +:+ String LF "".
Proof. repeat split; try reflexivity. by vm_compute. Qed.

(** A path made of one backslash has no character for the look-behind to
    see and is left as it is. *)
Example sanitize_path_lone_backslash : _sanitize_path windows "\" = "\".
Proof. reflexivity. Qed.

(** The look-behind at work: a path ending in two or more backslashes is
    left as it is. *)
Lemma sanitize_path_longer_run pf path :
  os_sep pf = "\" -> 2 <= trailing_backslashes path ->
  _sanitize_path pf path = path.
Proof.
  intros Hsep Hrun. rewrite sanitize_path_backslash by done.
  apply escape_scan_no_site.
  destruct (has_escape_site None path) eqn:Hs; [|done].
  apply has_escape_site_trailing in Hs as [H0|[H1 Hlen]]; lia.
Qed.

(** The same in terms of the shape of the path: whatever comes before, a
    last backslash after another character is doubled. *)
Lemma sanitize_path_escapes_last pf q c :
  os_sep pf = "\" -> c <> backslash ->
  _sanitize_path pf (q +:+ String c "\") = q +:+ String c "\\".
Proof.
  intros Hsep Hc. rewrite sanitize_path_backslash by done.
  rewrite escape_scan_single.
  - induction q as [|a q' IH]; [done|]. rewrite !append_cons. by f_equal.
  - apply (trailing_backslashes_after q c 1 Hc).
  - rewrite length_append. cbn. lia.
Qed.

(** What the pattern does get right.  Where the path separator is a
    backslash, a path ending in exactly one backslash that follows another
    character gets that backslash doubled, and a path ending neither in a
    backslash nor in a backslash and a line feed is unchanged.  On any
    other platform every path is unchanged. *)
Theorem sanitize_path_trailing_backslash (pf : Platform) (path : string) :
  (os_sep pf = "\" ->
   trailing_backslashes path = 1 -> 2 <= String.length path ->
   _sanitize_path pf path = path +:+ "\") /\
  (os_sep pf = "\" ->
   trailing_backslashes path = 0 ->
   endswith path (String backslash (String LF "")) = false ->
   _sanitize_path pf path = path) /\
  (os_sep pf <> "\" -> _sanitize_path pf path = path).
Proof.
  repeat split.
  - intros Hsep H1 Hlen. rewrite sanitize_path_backslash by done.
    apply escape_scan_single; [done|lia].
  - intros Hsep H0 Hend. rewrite sanitize_path_backslash by done.
    apply escape_scan_no_site.
    destruct (has_escape_site None path) eqn:Hs; [|done].
    apply has_escape_site_end in Hs as [?|?]; [lia|congruence].
  - apply sanitize_path_other_separator.
Qed.

Lemma sanitize_path_trailing_backslash_witness :
  _sanitize_path windows "C:\work\" = "C:\work\\" /\
  _sanitize_path windows "C:\work" = "C:\work" /\
  _sanitize_path posix "C:\work\" = "C:\work\".
Proof.
  split; [|split].
  - destruct (sanitize_path_trailing_backslash windows "C:\work\")
      as (H & _).
    apply H; [reflexivity | reflexivity | vm_compute; lia].
  - destruct (sanitize_path_trailing_backslash windows "C:\work")
      as (_ & H & _).
    apply H; reflexivity.
  - destruct (sanitize_path_trailing_backslash posix "C:\work\")
      as (_ & _ & H).
    apply H. discriminate.
Defined.

(** C1, on a path ending in three backslashes.  The run is odd, so its
    last backslash escapes what follows; [_sanitize_path] leaves the path
    as it is, and [get_run_command] puts it between double quotes with the
    three backslashes before the closing quote, which the comment in
    [_sanitize_path] says must not happen.  A second departure: a path
    ending in a backslash and a line feed does not end in a backslash and
    is changed all the same. *)
Theorem sanitize_path_odd_run_left_unescaped :
  os_sep windows = "\" /\
  Nat.odd (trailing_backslashes "C:\work\\\") = true /\
  _sanitize_path windows "C:\work\\\" = "C:\work\\\" /\
  _sanitize_path windows "C:\work\\\" <> "C:\work\\\" +:+ "\" /\
  (exists d w',
     get_run_command Demo.collaborators windows Demo.empty_conf
       odd_run_args Demo.initialised_world = (Ret d, w') /\
     f_cmd_template d
     = "C:\Python39\python.exe -m stestr.subunit_runner.run discover -t "
       +:+ quoted "./" +:+ " " +:+ quoted "C:\work\\\"
       +:+ " $LISTOPT $IDOPTION") /\
  trailing_backslashes ("C:\work\" +:+ String LF "") = 0 /\
  _sanitize_path windows ("C:\work\" +:+ String LF "")
    <> "C:\work\" +:+ String LF "".
Proof.
  split; [reflexivity|]. split; [reflexivity|]. split; [reflexivity|].
  split; [by vm_compute|]. split.
  - eexists _, _. split; [vm_compute; reflexivity|]. reflexivity.
  - split; [reflexivity|]. by vm_compute.
Qed.

(** C8.  Sanitizing a path twice gives what sanitizing it once gives, on
    every platform and for every path. *)
Theorem sanitize_path_idempotent (pf : Platform) (path : string) :
  _sanitize_path pf (_sanitize_path pf path) = _sanitize_path pf path.
Proof.
  destruct (String.eqb_spec (os_sep pf) "\") as [Hsep|Hsep].
  - rewrite !sanitize_path_backslash by done. apply escape_scan_idempotent.
  - by rewrite !sanitize_path_other_separator.
Qed.

(** ** The classifier of [parallel_class] *)

Lemma parallel_class_pattern_compiles :
  Re.re_compile parallel_class_pattern = Some parallel_class_re.
Proof. reflexivity. Qed.

Lemma escape_trailing_backslash_pattern_compiles :
  Re.re_compile "(?<=[^\\])\\$" = Some _escape_trailing_backslash_re.
Proof. reflexivity. Qed.

Lemma rmatch_not_dot prev s k :
  Re.rmatch not_dot prev s k =
  match s with
  | String c s' => if Ascii.eqb c dot then None else k (Some c) s'
  | EmptyString => None
  end.
Proof.
  destruct s as [|c s']; [done|]. cbn. unfold Re.cs_mem. cbn.
  by destruct (Ascii.eqb c dot).
Qed.

Lemma rmatch_dot prev s k :
  Re.rmatch (Re.Chr (Re.cs_lit dot)) prev s k =
  match s with
  | String c s' => if Ascii.eqb c dot then k (Some c) s' else None
  | EmptyString => None
  end.
Proof.
  destruct s as [|c s']; [done|]. cbn. unfold Re.cs_mem. cbn.
  by destruct (Ascii.eqb c dot).
Qed.

(** [[^\.]*\.] takes the text up to and including the first dot: the
    greedy loop runs to the dot, and giving characters back never helps
    since none of them is a dot. *)
Lemma star_not_dot_then_dot k n prev s :
  String.length s <= n ->
  Re.star_loop (Re.rmatch not_dot)
    (fun p' s' => Re.rmatch (Re.Chr (Re.cs_lit dot)) p' s' k) n prev s =
  match after_first_dot s with
  | Some rest => k (Some dot) rest
  | None => None
  end.
Proof.
  revert n prev. induction s as [|c s' IH]; intros n prev Hn.
  - destruct n; cbn [Re.star_loop after_first_dot];
      rewrite ?rmatch_not_dot, ?rmatch_dot; done.
  - cbn [String.length] in Hn. destruct n as [|n]; [lia|].
    cbn [Re.star_loop after_first_dot].
    rewrite rmatch_not_dot, rmatch_dot.
    destruct (Ascii.eqb_spec c dot) as [->|Hc]; [done|].
    assert (Nat.ltb (String.length s') (String.length (String c s')) = true)
      as -> by (apply Nat.ltb_lt; cbn [String.length]; lia).
    rewrite IH by lia.
    by destruct (after_first_dot s') as [rest|]; [destruct (k _ rest)|].
Qed.

Lemma after_first_dot_length s rest :
  after_first_dot s = Some rest -> String.length rest < String.length s.
Proof.
  revert rest. induction s as [|c s' IH]; intros rest; [done|].
  cbn [after_first_dot String.length].
  destruct (Ascii.eqb c dot); [intros [= ->]; lia|].
  intros H%IH. lia.
Qed.

Lemma after_first_dot_contains s :
  contains_dot s = bool_decide (after_first_dot s <> None).
Proof.
  induction s as [|c s' IH]; [done|]. cbn [contains_dot after_first_dot].
  by destruct (Ascii.eqb c dot).
Qed.

Lemma after_last_dot_none s :
  after_first_dot s = None -> after_last_dot s = s.
Proof.
  destruct s as [|c s']; [done|]. cbn [after_first_dot after_last_dot].
  rewrite after_first_dot_contains.
  destruct (Ascii.eqb c dot); [done|]. by intros ->.
Qed.

Lemma after_last_dot_some s rest :
  after_first_dot s = Some rest -> after_last_dot s = after_last_dot rest.
Proof.
  revert rest. induction s as [|c s' IH]; intros rest; [done|].
  cbn [after_first_dot after_last_dot]. rewrite after_first_dot_contains.
  destruct (Ascii.eqb_spec c dot) as [->|Hc].
  - intros [= ->]. destruct (after_first_dot rest) as [r|] eqn:Hr.
    + rewrite bool_decide_eq_true_2 by done. done.
    + rewrite bool_decide_eq_false_2 by (intros ?; done).
      by rewrite after_last_dot_none.
  - intros Hs. rewrite Hs, bool_decide_eq_true_2 by done. by apply IH.
Qed.

(** The whole pattern, from any position, leaves the text after the last
    dot. *)
Lemma rmatch_parallel_class prev s :
  Re.rmatch parallel_class_re prev s (fun _ rest => Some rest)
  = Some (after_last_dot s).
Proof.
  unfold parallel_class_re. cbn [Re.rmatch].
  change (Re.Chr (Re.cs_not [dot])) with not_dot.
  assert (forall n prev s, String.length s <= n ->
    Re.star_loop
      (fun prev0 s0 k =>
         Re.star_loop (Re.rmatch not_dot)
           (fun p' s' => Re.rmatch (Re.Chr (Re.cs_lit dot)) p' s' k)
           (String.length s0) prev0 s0)
      (fun _ rest => Some rest) n prev s = Some (after_last_dot s)) as Hloop.
  { clear. induction n as [|n IH]; intros prev s Hn.
    - destruct s; [done|]. cbn [String.length] in Hn. lia.
    - cbn [Re.star_loop]. rewrite star_not_dot_then_dot by done.
      destruct (after_first_dot s) as [rest|] eqn:Hs.
      + pose proof (after_first_dot_length _ _ Hs) as Hlt.
        rewrite (proj2 (Nat.ltb_lt _ _) Hlt), IH by lia.
        by rewrite (after_last_dot_some _ _ Hs).
      + by rewrite after_last_dot_none. }
  by apply Hloop.
Qed.

Lemma dotted_prefix_after_last_dot s :
  s = dotted_prefix s +:+ after_last_dot s.
Proof.
  induction s as [|c s' IH]; [done|].
  cbn [dotted_prefix after_last_dot].
  destruct (contains_dot s') eqn:Hd.
  - rewrite orb_true_r, append_cons. by f_equal.
  - rewrite orb_false_r. destruct (Ascii.eqb c dot); [|done].
    rewrite append_cons. f_equal.
    assert (dotted_prefix s' = "") as ->; [|done].
    destruct s' as [|d s'']; [done|]. cbn [dotted_prefix]. cbn in Hd.
    by rewrite Hd.
Qed.

Lemma substring_prefix p r : substring 0 (String.length p) (p +:+ r) = p.
Proof.
  induction p as [|c p' IH]; [by destruct r|].
  rewrite append_cons. cbn [String.length substring]. by rewrite IH.
Qed.

Lemma consumed_after_last_dot s :
  Re.consumed s (after_last_dot s) = dotted_prefix s.
Proof.
  unfold Re.consumed.
  rewrite (dotted_prefix_after_last_dot s) at 1 3.
  rewrite length_append.
  replace (String.length (dotted_prefix s) + String.length (after_last_dot s)
           - String.length (after_last_dot s))
    with (String.length (dotted_prefix s)) by lia.
  apply substring_prefix.
Qed.

(** The classifier of the fixed pattern maps every test id to its prefix up
    to the last dot. *)
Lemma group_callback_parallel_class test_id :
  group_callback parallel_class_re test_id = Some (dotted_prefix test_id).
Proof.
  unfold group_callback, Re.re_match. rewrite rmatch_parallel_class.
  cbn [Re.group0]. by rewrite consumed_after_last_dot.
Qed.

Lemma dotted_prefix_no_dot s : contains_dot s = false -> dotted_prefix s = "".
Proof.
  destruct s as [|c s']; [done|]. cbn [contains_dot dotted_prefix].
  by intros ->.
Qed.

(** ** [get_run_command] *)

Section ConfigFileFacts.
Variable C : Collaborators.

Lemma make_group_callback_parallel_class w :
  make_group_callback C (Some parallel_class_pattern) w
  = (Ret (Some (group_callback parallel_class_re)), w).
Proof. reflexivity. Qed.

Lemma resolve_group_regex_parallel_class self args w :
  truthy_flag (parallel_class args) = true ->
  resolve_group_regex C self args w = (Ret (Some parallel_class_pattern), w).
Proof. intros Hpc. unfold resolve_group_regex. rewrite Hpc. reflexivity. Qed.

(** The steps of [get_run_command] before the group pattern is settled all
    returned when the whole call did. *)
Lemma get_run_command_inv pf self args w d w' :
  get_run_command C pf self args w = (Ret d, w') ->
  exists w1 group_regex w2 cb,
    resolve_group_regex C self args w1 = (Ret group_regex, w2) /\
    make_group_callback C group_regex w2 = (Ret cb, w2) /\
    f_group_callback d = cb.
Proof.
  unfold get_run_command, bind.
  destruct (resolve_test_path C self (test_path args) w) as [[tp|e] w0]; [|done].
  destruct (resolve_top_dir C self (top_dir args) w0) as [[td|e] w1]; [|done].
  destruct (resolve_python C pf w1) as [[py|e] w1']; [|done].
  destruct (resolve_group_regex C self args w1') as [[g|e] w2] eqn:Hg; [|done].
  destruct (make_group_callback C g w2) as [[cb|e] w3] eqn:Hcb; [|done].
  destruct (get_repo_open C (repo_url args) w3) as [[repo|e] w4]; [|done].
  intros [= <- <-]. exists w1', g, w2, cb. split; [done|]. split; [|done].
  unfold make_group_callback in *.
  destruct (truthy g); [|by injection Hcb as <- <-].
  destruct (Re.re_compile (default "" g)); [|done]. by injection Hcb as <- <-.
Qed.

End ConfigFileFacts.

(** With [parallel_class] true the call returns as soon as the paths and
    the interpreter are found and the gateway opens the repository: the
    fixed pattern always compiles. *)
Lemma get_run_command_parallel_class_returns
    C pf self args w tp td py repo s1 :
  resolve_test_path C self (test_path args) w = (Ret tp, w) ->
  resolve_top_dir C self (top_dir args) w = (Ret td, w) ->
  resolve_python C pf w = (Ret py, w) ->
  truthy_flag (parallel_class args) = true ->
  util_get_repo_open C (repo_url args) (w_sys w) = (Ret repo, s1) ->
  exists d,
    get_run_command C pf self args w
      = (Ret d, loaded_world w (repo_url args) s1) /\
    f_group_callback d = Some (group_callback parallel_class_re) /\
    f_cmd_template d
      = command_template
          (if path_exists pf (quoted py) then quoted py else py)
          (_sanitize_path pf td) (_sanitize_path pf tp).
Proof.
  intros Htp Htd Hpy Hpc Hopen. eexists. split.
  - unfold get_run_command.
    rewrite (bind_ok _ _ _ _ _ Htp), (bind_ok _ _ _ _ _ Htd),
      (bind_ok _ _ _ _ _ Hpy).
    rewrite (bind_ok _ _ _ _ _ (resolve_group_regex_parallel_class C self args w Hpc)).
    rewrite (bind_ok _ _ _ _ _ (make_group_callback_parallel_class C w)).
    unfold get_repo_open, bind, log_gateway, lift.
    cbn [w_sys w_gateway_calls]. rewrite Hopen. reflexivity.
  - split; reflexivity.
Qed.

(** The classifier of a pattern of the caller's, for comparison: anchored
    at the start of the id, [None] when the id does not start with it. *)
Example group_callback_foo :
  exists regex,
    Re.re_compile "^(foo\.)" = Some regex /\
    group_callback regex "foo.bar.Test.test_x" = Some "foo." /\
    group_callback regex "baz.Test.test_x" = None.
Proof. eexists. repeat split; reflexivity. Qed.

(** C2.  When the [parallel_class] argument is true and a [group_regex]
    argument is given as well, the fixture [get_run_command] returns has
    the classifier of the fixed pattern [([^\.]*\.)*], whatever the given
    pattern was. *)
Theorem get_run_command_parallel_class_overwrites
    (C : Collaborators) (pf : Platform) (self : TestrConf) (args : RunArgs)
    (supplied : string) (w w' : World (Heap C))
    (d : TestProcessorFixture (Repository C)) :
  truthy_flag (parallel_class args) = true ->
  group_regex args = Some supplied ->
  get_run_command C pf self args w = (Ret d, w') ->
  Re.re_compile parallel_class_pattern = Some parallel_class_re /\
  f_group_callback d = Some (group_callback parallel_class_re).
Proof.
  intros Hpc _ Hrun. split; [reflexivity|].
  apply get_run_command_inv in Hrun as (w1 & g & w2 & cb & Hg & Hcb & ->).
  rewrite resolve_group_regex_parallel_class in Hg by done.
  injection Hg as <- <-. rewrite make_group_callback_parallel_class in Hcb.
  by injection Hcb as <-.
Qed.

Lemma get_run_command_parallel_class_overwrites_witness :
  exists d w',
    get_run_command Demo.collaborators posix Demo.conf_with_test_path
      Demo.parallel_class_and_pattern Demo.initialised_world = (Ret d, w') /\
    f_group_callback d = Some (group_callback parallel_class_re).
Proof.
  eexists _, _. split; [vm_compute; reflexivity|].
  eapply (get_run_command_parallel_class_overwrites Demo.collaborators posix
            Demo.conf_with_test_path Demo.parallel_class_and_pattern
            "^(foo\.)" Demo.initialised_world);
    [reflexivity | reflexivity | vm_compute; reflexivity].
Defined.

(** C9.  The classifier built from the fixed pattern [([^\.]*\.)*] never
    answers [None]: every test id gets a group key, and an id without a dot
    gets the empty string.  This is the classifier [get_run_command] builds
    whenever the group pattern is the fixed one. *)
Theorem parallel_class_classifier_never_none :
  (forall test_id, group_callback parallel_class_re test_id <> None) /\
  (forall test_id, contains_dot test_id = false ->
                   group_callback parallel_class_re test_id = Some "") /\
  (forall (C : Collaborators) (w : World (Heap C)),
     make_group_callback C (Some parallel_class_pattern) w
     = (Ret (Some (group_callback parallel_class_re)), w)).
Proof.
  split; [|split].
  - intros test_id. by rewrite group_callback_parallel_class.
  - intros test_id Hdot.
    by rewrite group_callback_parallel_class, dotted_prefix_no_dot.
  - intros C w. apply make_group_callback_parallel_class.
Qed.

Example parallel_class_classifier_examples :
  group_callback parallel_class_re "pkg.tests.TestA.test_one"
    = Some "pkg.tests.TestA." /\
  group_callback parallel_class_re "test_one" = Some "" /\
  group_callback parallel_class_re "test_two" = Some "".
Proof. repeat split; reflexivity. Qed.

Lemma no_test_path_message_names_file config_file :
  contains (no_test_path_message config_file) config_file.
Proof.
  exists ("No test_path can be found in either the command line "
          +:+ "options nor in the specified config file "),
         (".  Please "
          +:+ "specify a test path either in the config file or via "
          +:+ "the --test-path argument").
  reflexivity.
Qed.

(** C5.  When [test_path] comes neither with the arguments nor from the
    section of the configuration file, [get_run_command] leaves through
    [sys.exit] with a message that names the configuration file; no fixture
    is returned, and nothing was written or asked of the gateway. *)
Theorem get_run_command_without_test_path
    (C : Collaborators) (pf : Platform) (self : TestrConf) (args : RunArgs)
    (w : World (Heap C)) :
  truthy (test_path args) = false ->
  has_option (parser self) (section self) "test_path" = false ->
  get_run_command C pf self args w
  = (Raise (SystemExit (ExitMsg (no_test_path_message (config_file self)))), w)
  /\ contains (no_test_path_message (config_file self)) (config_file self).
Proof.
  intros Harg Hopt. split; [|apply no_test_path_message_names_file].
  unfold get_run_command, bind, resolve_test_path.
  by rewrite Harg, Hopt.
Qed.

Lemma get_run_command_without_test_path_witness :
  fst (get_run_command Demo.collaborators posix Demo.empty_conf
         default_run_args Demo.initialised_world)
  = Raise (SystemExit (ExitMsg (no_test_path_message ".stestr.conf"))).
Proof.
  destruct (get_run_command_without_test_path Demo.collaborators posix
              Demo.empty_conf default_run_args Demo.initialised_world)
    as [H _]; [reflexivity | reflexivity |].
  rewrite H. reflexivity.
Defined.

(** C6, on an interpreter path with a space.  The test the source makes is
    whether a file named by the path between double quotes exists; none
    does here, and the path goes into the command as it is. *)
Theorem get_run_command_spaced_interpreter_unquoted :
  contains_whitespace "/opt/my python/bin/python3" = true /\
  exists d w',
    get_run_command Demo.collaborators Demo.spaced_python
      Demo.conf_with_test_path default_run_args Demo.initialised_world
    = (Ret d, w') /\
    f_cmd_template d
    = "/opt/my python/bin/python3 -m stestr.subunit_runner.run discover -t "
      +:+ quoted "./" +:+ " " +:+ quoted "./tests"
      +:+ " $LISTOPT $IDOPTION" /\
    f_cmd_template d
    <> command_template (quoted "/opt/my python/bin/python3") "./" "./tests".
Proof.
  split; [reflexivity|]. eexists _, _. split; [vm_compute; reflexivity|].
  split; [reflexivity|]. by vm_compute.
Qed.

(** What decides the quoting, for every call that returns. *)
Lemma get_run_command_quoting C pf self args w d w' :
  get_run_command C pf self args w = (Ret d, w') ->
  exists python top_dir test_path,
    f_cmd_template d
    = command_template
        (if path_exists pf (quoted python) then quoted python else python)
        top_dir test_path.
Proof.
  unfold get_run_command, bind.
  destruct (resolve_test_path C self _ w) as [[tp|e] w0]; [|done].
  destruct (resolve_top_dir C self _ w0) as [[td|e] w1]; [|done].
  destruct (resolve_python C pf w1) as [[py|e] w1']; [|done].
  destruct (resolve_group_regex C self args w1') as [[g|e] w2]; [|done].
  destruct (make_group_callback C g w2) as [[cb|e] w3]; [|done].
  destruct (get_repo_open C (repo_url args) w3) as [[repo|e] w4]; [|done].
  intros [= <- <-]. by eexists py, _, _.
Qed.

(** ** [last] *)

Section LastFacts.
Variable C : Collaborators.

Lemma get_repo_open_ok repo_url w repo s1 :
  util_get_repo_open C repo_url (w_sys w) = (Ret repo, s1) ->
  get_repo_open C repo_url w = (Ret repo, loaded_world w repo_url s1).
Proof.
  intros H. unfold get_repo_open, bind, log_gateway, lift.
  cbn [w_sys w_gateway_calls]. by rewrite H.
Qed.

Lemma last_loaded repo_url subunit_out pretty_out color sa aa sb w repo s1 run s2 :
  util_get_repo_open C repo_url (w_sys w) = (Ret repo, s1) ->
  repo_get_latest_run C repo s1 = (Ret run, s2) ->
  last C repo_url subunit_out pretty_out color sa aa sb w =
  (if subunit_out then
     let! stream := lift (run_get_subunit_stream C run) in
     lift (output_stream C stream) ;;
     ret 0%Z
   else
     let! failed := render_failed C repo run pretty_out color sa aa sb in
     if (failed : bool) then ret 1%Z else ret 0%Z)
    (loaded_world w repo_url s2).
Proof.
  intros Hopen Hlatest. unfold last.
  rewrite (bind_ok _ _ w (inl repo) (loaded_world w repo_url s1)); cycle 1.
  { apply try_except_ok.
    by rewrite (bind_ok _ _ _ _ _ (get_repo_open_ok _ _ _ _ Hopen)). }
  rewrite (bind_ok _ _ _ (inl run) (loaded_world w repo_url s2)); cycle 1.
  { apply try_except_ok.
    rewrite (bind_ok _ _ _ run (loaded_world w repo_url s2)); [done|].
    unfold lift, loaded_world. cbn [w_sys w_gateway_calls].
    by rewrite Hlatest. }
  destruct subunit_out; [reflexivity|].
  unfold render_failed. rewrite bind_assoc. apply bind_ext. intros case w3.
  rewrite bind_assoc. reflexivity.
Qed.

End LastFacts.

(** C3.  For a store that opens and whose latest run loads: with raw
    output, once the copy of the stream completes, [last] returns 0,
    whatever the renderers would say of the run; without it, in either
    rendered mode, [last] returns 1 when the renderer reports failures. *)
Theorem last_raw_exit_status_ignores_failures
    (C : Collaborators) (repo_url : option string) (color sa aa sb : bool)
    (w : World (Heap C)) (repo : Repository C) (run : Run C)
    (s1 s2 : Sys (Heap C)) :
  util_get_repo_open C repo_url (w_sys w) = (Ret repo, s1) ->
  repo_get_latest_run C repo s1 = (Ret run, s2) ->
  (forall pretty_out stream s3 s4,
     run_get_subunit_stream C run s2 = (Ret stream, s3) ->
     output_stream C stream s3 = (Ret tt, s4) ->
     last C repo_url true pretty_out color sa aa sb w
     = (Ret 0%Z, loaded_world w repo_url s4)) /\
  (forall pretty_out w3,
     render_failed C repo run pretty_out color sa aa sb
       (loaded_world w repo_url s2) = (Ret true, w3) ->
     last C repo_url false pretty_out color sa aa sb w = (Ret 1%Z, w3)).
Proof.
  intros Hopen Hlatest. split.
  - intros pretty_out stream s3 s4 Hstream Hcopy.
    rewrite (last_loaded C _ _ _ _ _ _ _ _ _ _ _ _ Hopen Hlatest).
    unfold bind, lift, loaded_world. cbn [w_sys w_gateway_calls].
    rewrite Hstream. cbn [w_sys w_gateway_calls]. by rewrite Hcopy.
  - intros pretty_out w3 Hfailed.
    rewrite (last_loaded C _ _ _ _ _ _ _ _ _ _ _ _ Hopen Hlatest).
    by rewrite (bind_ok _ _ _ _ _ Hfailed).
Qed.

Lemma last_raw_exit_status_ignores_failures_witness :
  fst (last Demo.collaborators None true true false false false false
         Demo.failing_world) = Ret 0%Z /\
  fst (last Demo.collaborators None false false false false false false
         Demo.failing_world) = Ret 1%Z /\
  fst (last Demo.collaborators None false true false false false false
         Demo.failing_world) = Ret 1%Z.
Proof.
  destruct (last_raw_exit_status_ignores_failures Demo.collaborators None
              false false false false Demo.failing_world
              [Demo.failing_run] Demo.failing_run
              (w_sys Demo.failing_world) (w_sys Demo.failing_world)
              eq_refl eq_refl) as [Hraw Hrendered].
  split; [|split].
  - by rewrite (Hraw true _ _ _ eq_refl eq_refl).
  - by rewrite (Hrendered false _ eq_refl).
  - by rewrite (Hrendered true _ eq_refl).
Defined.

(** C10.  With raw output, what [last] writes and returns (or raises) does
    not depend on [pretty_out], [color], [suppress_attachments],
    [all_attachments] and [show_binary_attachments]: from the same world,
    two calls that differ in these only end in the same outcome and the
    same world. *)
Theorem last_raw_independent_of_rendering
    (C : Collaborators) (repo_url : option string) (w : World (Heap C))
    (pretty_out1 color1 sa1 aa1 sb1 pretty_out2 color2 sa2 aa2 sb2 : bool) :
  last C repo_url true pretty_out1 color1 sa1 aa1 sb1 w
  = last C repo_url true pretty_out2 color2 sa2 aa2 sb2 w.
Proof. reflexivity. Qed.

(** C4.  With both [suppress_attachments] and [all_attachments] set,
    [Last.take_action] makes no call to the repository gateway; once the
    user configuration is loaded it prints the message and leaves through
    [sys.exit(1)]. *)
Theorem last_take_action_mutually_exclusive
    (C : Collaborators) (app_args : AppArgs) (args : LastArgs)
    (w : World (Heap C)) :
  suppress_attachments args = true ->
  all_attachments args = true ->
  w_gateway_calls (snd (Last_take_action C app_args args w))
    = w_gateway_calls w /\
  (forall user_conf s1,
     get_user_config C (app_user_config app_args) (w_sys w)
       = (Ret user_conf, s1) ->
     Last_take_action C app_args args w
     = (Raise (SystemExit (ExitCode 1)),
        {| w_sys := printed s1 (mutually_exclusive_message +:+ String LF "");
           w_gateway_calls := w_gateway_calls w |})) /\
  exit_status (ExitCode 1) = 1%Z.
Proof.
  intros Hsa Haa. unfold Last_take_action, bind, lift. rewrite Hsa, Haa.
  cbn [andb]. split; [|split; [|reflexivity]].
  - by destruct (get_user_config C _ (w_sys w)) as [[uc|e] s1].
  - intros uc s1 ->. reflexivity.
Qed.

Lemma last_take_action_mutually_exclusive_witness :
  Last_take_action Demo.collaborators Demo.file_app
    Demo.both_attachment_flags Demo.failing_world
  = (Raise (SystemExit (ExitCode 1)),
     {| w_sys := printed (w_sys Demo.failing_world)
                   (mutually_exclusive_message +:+ String LF "");
        w_gateway_calls := [] |}).
Proof.
  destruct (last_take_action_mutually_exclusive Demo.collaborators
              Demo.file_app Demo.both_attachment_flags Demo.failing_world
              eq_refl eq_refl) as (_ & H & _).
  exact (H None (w_sys Demo.failing_world) eq_refl).
Defined.

(** ** [init] *)

(** Whenever [Init.take_action] returns, it returns [None]: the value of
    [init] does not reach the caller. *)
Lemma init_take_action_returns_none C app_args w v w' :
  Init_take_action C app_args w = (Ret v, w') -> v = None.
Proof.
  unfold Init_take_action, bind.
  destruct (init C _ _ w) as [[r|e] w1]; [|done]. by intros [= <- _].
Qed.

(** [init] returns 1 on a location that exists, with the message written. *)
Lemma init_existing C repo_type repo_url w s1 :
  repo_type <> "sql" ->
  util_get_repo_initialise C repo_type repo_url (w_sys w)
    = (Raise (OSError (Some EEXIST)), s1) ->
  init C repo_type repo_url w
  = (Ret (Some 1%Z),
     {| w_sys := printed s1
                   (already_exists_message
                      (if truthy repo_url then default "" repo_url
                       else "./stestr"));
        w_gateway_calls :=
          w_gateway_calls w ++ [GetRepoInitialise repo_type repo_url] |}).
Proof.
  intros Hty Hinit. unfold init.
  destruct (String.eqb_spec repo_type "sql") as [?|_]; [done|].
  unfold bind at 1. cbn [ret].
  unfold try_except, bind at 1, get_repo_initialise, bind at 1.
  unfold log_gateway, lift. cbn [w_sys w_gateway_calls]. rewrite Hinit.
  reflexivity.
Qed.

(** C7, on the default location.  Where the store exists [init] returns 1,
    but the message names [./stestr] and [Init.take_action] returns [None];
    on a fresh location both return [None].  The command therefore ends
    the same way in both cases. *)
Theorem init_take_action_drops_status :
  fst (init Demo.collaborators "file" None Demo.initialised_world)
    = Ret (Some 1%Z) /\
  stdout (w_sys (snd (init Demo.collaborators "file" None
                        Demo.initialised_world)))
    = already_exists_message "./stestr" /\
  Demo.location None = ".stestr" /\
  fst (Init_take_action Demo.collaborators Demo.file_app
         Demo.initialised_world) = Ret None /\
  fst (init Demo.collaborators "file" None Demo.fresh_world) = Ret None /\
  fst (Init_take_action Demo.collaborators Demo.file_app Demo.fresh_world)
    = Ret None.
Proof. repeat split; reflexivity. Qed.

(** ** Further properties of [last] *)

Section CallsFacts.
Context {Heap : Type}.

Lemma adds_calls_ret {A} (a : A) : adds_calls (Heap:=Heap) [] (ret a).
Proof. intros w. cbn. by rewrite app_nil_r. Qed.

Lemma adds_calls_raise {A} e : adds_calls (Heap:=Heap) (A:=A) [] (raise e).
Proof. intros w. cbn. by rewrite app_nil_r. Qed.

Lemma adds_calls_lift {A} (c : ext Heap A) : adds_calls [] (lift c).
Proof. intros w. by rewrite lift_gateway_calls, app_nil_r. Qed.

Lemma adds_calls_stdout_write text :
  adds_calls (Heap:=Heap) [] (stdout_write text).
Proof. intros w. cbn. by rewrite app_nil_r. Qed.

Lemma adds_calls_stderr_write text :
  adds_calls (Heap:=Heap) [] (stderr_write text).
Proof. intros w. cbn. by rewrite app_nil_r. Qed.

Lemma adds_calls_bind {A B} l (c : M Heap A) (k : A -> M Heap B) :
  adds_calls l c -> (forall a, adds_calls [] (k a)) ->
  adds_calls l (bind c k).
Proof.
  intros Hc Hk w. unfold bind. specialize (Hc w).
  destruct (c w) as [[a|e] w1]; cbn in *; [|done].
  by rewrite Hk, app_nil_r.
Qed.

Lemma adds_calls_try_except {A} l (c : M Heap A) handler :
  adds_calls l c ->
  (forall e h, handler e = Some h -> adds_calls [] h) ->
  adds_calls l (try_except c handler).
Proof.
  intros Hc Hh w. unfold try_except. specialize (Hc w).
  destruct (c w) as [[a|e] w1]; cbn in *; [done|].
  destruct (handler e) as [h|] eqn:He; [|done].
  by rewrite (Hh _ _ He), app_nil_r.
Qed.

Lemma adds_calls_try_finally {A} (c : M Heap A) f :
  adds_calls [] c -> adds_calls [] f -> adds_calls [] (try_finally c f).
Proof.
  intros Hc Hf w. unfold try_finally. specialize (Hc w).
  destruct (c w) as [r w1]. specialize (Hf w1).
  destruct (f w1) as [[u|e] w2]; cbn in *; by rewrite Hf, app_nil_r.
Qed.

End CallsFacts.

Lemma adds_calls_get_repo_open C repo_url :
  adds_calls [GetRepoOpen repo_url] (get_repo_open C repo_url).
Proof.
  intros w. unfold get_repo_open, bind, log_gateway, lift.
  cbn [w_sys w_gateway_calls]. by destruct (util_get_repo_open C _ _).
Qed.

Lemma adds_calls_get_repo_initialise C repo_type repo_url :
  adds_calls [GetRepoInitialise repo_type repo_url]
    (get_repo_initialise C repo_type repo_url).
Proof.
  intros w. unfold get_repo_initialise, bind, log_gateway, lift.
  cbn [w_sys w_gateway_calls]. by destruct (util_get_repo_initialise C _ _ _).
Qed.

Lemma adds_calls_lookup_previous C repo :
  adds_calls [] (lookup_previous C repo).
Proof.
  apply adds_calls_try_except.
  - apply adds_calls_bind; [apply adds_calls_lift|]. intros latest.
    apply adds_calls_bind; [apply adds_calls_lift|]. intros run.
    apply adds_calls_ret.
  - intros e h He. destruct e; try done. injection He as <-.
    apply adds_calls_ret.
Qed.

Lemma adds_calls_render_with C run case prev p c sa aa sb :
  adds_calls [] (render_with C run case prev p c sa aa sb).
Proof.
  unfold render_with. destruct (negb p).
  - apply adds_calls_bind; [apply adds_calls_lift|]. intros output_result.
    apply adds_calls_bind; [apply adds_calls_lift|]. intros summary.
    apply adds_calls_bind; [apply adds_calls_lift|]. intros _.
    apply adds_calls_bind.
    { apply adds_calls_try_finally; apply adds_calls_lift. }
    intros _. apply adds_calls_bind; [apply adds_calls_lift|]. intros ok.
    apply adds_calls_ret.
  - apply adds_calls_bind; [apply adds_calls_lift|]. intros stream.
    apply adds_calls_lift.
Qed.

(** [render_failed] is the lookups followed by the rendering. *)
Lemma render_failed_eq C repo run p c sa aa sb w :
  render_failed C repo run p c sa aa sb w =
  (let! case := lift (run_get_test C run) in
   let! previous_run := lookup_previous C repo in
   render_with C run case previous_run p c sa aa sb) w.
Proof. reflexivity. Qed.

Section LastMore.
Variable C : Collaborators.
Implicit Types w : World (Heap C).

Lemma last_open_raises repo_url so p c sa aa sb w e s1 :
  util_get_repo_open C repo_url (w_sys w) = (Raise e, s1) ->
  last C repo_url so p c sa aa sb w =
  match e with
  | RepositoryNotFound str_e =>
      (Ret 1%Z,
       loaded_world w repo_url (printed s1 (str_e +:+ String LF "")))
  | _ => (Raise e, loaded_world w repo_url s1)
  end.
Proof.
  intros Hopen. unfold last.
  unfold bind at 1, try_except at 1, bind at 1, get_repo_open, bind at 1.
  unfold log_gateway, lift at 1. cbn [w_sys w_gateway_calls].
  rewrite Hopen. by destruct e.
Qed.

Lemma last_latest_raises repo_url so p c sa aa sb w repo s1 e s2 :
  util_get_repo_open C repo_url (w_sys w) = (Ret repo, s1) ->
  repo_get_latest_run C repo s1 = (Raise e, s2) ->
  last C repo_url so p c sa aa sb w =
  match e with
  | KeyError str_e =>
      (Ret 1%Z,
       loaded_world w repo_url (printed s2 (str_e +:+ String LF "")))
  | _ => (Raise e, loaded_world w repo_url s2)
  end.
Proof.
  intros Hopen Hlatest. unfold last.
  rewrite (bind_ok _ _ w (inl repo) (loaded_world w repo_url s1)); cycle 1.
  { apply try_except_ok.
    by rewrite (bind_ok _ _ _ _ _ (get_repo_open_ok _ _ _ _ _ Hopen)). }
  unfold bind at 1, try_except at 1, bind at 1, lift at 1, loaded_world.
  cbn [w_sys w_gateway_calls]. rewrite Hlatest. by destruct e.
Qed.

End LastMore.

(** X1.  When the gateway finds no store, [last] writes the text of the
    exception and a line feed, and returns 1; the store was asked for once
    and nothing else was done, whatever the mode. *)
Theorem last_repository_not_found
    (C : Collaborators) (repo_url : option string)
    (subunit_out pretty_out color sa aa sb : bool)
    (w : World (Heap C)) (str_e : string) (s1 : Sys (Heap C)) :
  util_get_repo_open C repo_url (w_sys w)
    = (Raise (RepositoryNotFound str_e), s1) ->
  last C repo_url subunit_out pretty_out color sa aa sb w
  = (Ret 1%Z, loaded_world w repo_url (printed s1 (str_e +:+ String LF ""))).
Proof.
  intros Hopen.
  by rewrite (last_open_raises C _ _ _ _ _ _ _ _ _ _ Hopen).
Qed.

Lemma last_repository_not_found_witness :
  last Demo.collaborators None true true false false false false
    Demo.fresh_world
  = (Ret 1%Z,
     loaded_world Demo.fresh_world None
       (printed (w_sys Demo.fresh_world)
          ("No repository found in .stestr" +:+ String LF ""))).
Proof.
  exact (last_repository_not_found Demo.collaborators None
           true true false false false false Demo.fresh_world
           "No repository found in .stestr" (w_sys Demo.fresh_world) eq_refl).
Defined.

(** X2.  When the store has no run ([get_latest_run] raises [KeyError]),
    [last] writes the text of the exception and returns 1, in every mode;
    neither the previous run nor a renderer is reached. *)
Theorem last_no_runs
    (C : Collaborators) (repo_url : option string)
    (subunit_out pretty_out color sa aa sb : bool)
    (w : World (Heap C)) (repo : Repository C) (str_e : string)
    (s1 s2 : Sys (Heap C)) :
  util_get_repo_open C repo_url (w_sys w) = (Ret repo, s1) ->
  repo_get_latest_run C repo s1 = (Raise (KeyError str_e), s2) ->
  last C repo_url subunit_out pretty_out color sa aa sb w
  = (Ret 1%Z, loaded_world w repo_url (printed s2 (str_e +:+ String LF ""))).
Proof.
  intros Hopen Hlatest.
  by rewrite (last_latest_raises C _ _ _ _ _ _ _ _ _ _ _ _ Hopen Hlatest).
Qed.

Lemma last_no_runs_witness :
  last Demo.collaborators None false true false false false false
    Demo.initialised_world
  = (Ret 1%Z,
     loaded_world Demo.initialised_world None
       (printed (w_sys Demo.initialised_world)
          ("No tests in repository" +:+ String LF ""))).
Proof.
  exact (last_no_runs Demo.collaborators None
           false true false false false false Demo.initialised_world
           [] "No tests in repository" (w_sys Demo.initialised_world)
           (w_sys Demo.initialised_world) eq_refl eq_refl).
Defined.

(** X3.  [last] catches [RepositoryNotFound] from opening and [KeyError]
    from loading the latest run, and nothing else: any other exception
    raised there leaves [last] as it is, with nothing written by [last]. *)
Theorem last_other_errors_propagate
    (C : Collaborators) (repo_url : option string)
    (subunit_out pretty_out color sa aa sb : bool)
    (w : World (Heap C)) (e : exn) :
  (forall s1,
     util_get_repo_open C repo_url (w_sys w) = (Raise e, s1) ->
     is_repository_not_found e = false ->
     last C repo_url subunit_out pretty_out color sa aa sb w
     = (Raise e, loaded_world w repo_url s1)) /\
  (forall repo s1 s2,
     util_get_repo_open C repo_url (w_sys w) = (Ret repo, s1) ->
     repo_get_latest_run C repo s1 = (Raise e, s2) ->
     is_key_error e = false ->
     last C repo_url subunit_out pretty_out color sa aa sb w
     = (Raise e, loaded_world w repo_url s2)).
Proof.
  split.
  - intros s1 Hopen He.
    rewrite (last_open_raises C _ _ _ _ _ _ _ _ _ _ Hopen). by destruct e.
  - intros repo s1 s2 Hopen Hlatest He.
    rewrite (last_latest_raises C _ _ _ _ _ _ _ _ _ _ _ _ Hopen Hlatest).
    by destruct e.
Qed.

Lemma last_other_errors_propagate_witness :
  fst (last (Faulty.collaborators (Faulty.open_fails (OSError (Some 13%Z))))
         None false true false false false false Demo.failing_world)
    = Raise (OSError (Some 13%Z)) /\
  fst (last (Faulty.collaborators (Faulty.latest_fails (OtherError "ValueError")))
         None false true false false false false Demo.failing_world)
    = Raise (OtherError "ValueError").
Proof.
  split.
  - destruct (last_other_errors_propagate
                (Faulty.collaborators (Faulty.open_fails (OSError (Some 13%Z))))
                None false true false false false false Demo.failing_world
                (OSError (Some 13%Z))) as [H _].
    by rewrite (H (w_sys Demo.failing_world) eq_refl eq_refl).
  - destruct (last_other_errors_propagate
                (Faulty.collaborators
                   (Faulty.latest_fails (OtherError "ValueError")))
                None false true false false false false Demo.failing_world
                (OtherError "ValueError")) as [_ H].
    by rewrite (H [Demo.failing_run] (w_sys Demo.failing_world)
                  (w_sys Demo.failing_world) eq_refl eq_refl eq_refl).
Defined.

(** X4.  Whenever [last] returns, it returns 0 or 1. *)
Theorem last_exit_status_range
    (C : Collaborators) (repo_url : option string)
    (subunit_out pretty_out color sa aa sb : bool)
    (w w' : World (Heap C)) (v : Z) :
  last C repo_url subunit_out pretty_out color sa aa sb w = (Ret v, w') ->
  v = 0%Z \/ v = 1%Z.
Proof.
  destruct (util_get_repo_open C repo_url (w_sys w)) as [[repo|e] s1] eqn:Hopen.
  - destruct (repo_get_latest_run C repo s1) as [[run|e] s2] eqn:Hlatest.
    + rewrite (last_loaded C _ _ _ _ _ _ _ _ _ _ _ _ Hopen Hlatest).
      destruct subunit_out; unfold bind.
      * destruct (lift (run_get_subunit_stream C run) _) as [[stream|e] w3];
          [|done].
        destruct (lift (output_stream C stream) w3) as [[u|e] w4]; [|done].
        intros [= <- _]. by left.
      * destruct (render_failed C repo run _ _ _ _ _ _) as [[[]|e] w3];
          [| |done]; intros [= <- _]; auto.
    + rewrite (last_latest_raises C _ _ _ _ _ _ _ _ _ _ _ _ Hopen Hlatest).
      destruct e; try done. intros [= <- _]. by right.
  - rewrite (last_open_raises C _ _ _ _ _ _ _ _ _ _ Hopen).
    destruct e; try done. intros [= <- _]. by right.
Qed.

Lemma last_exit_status_range_witness :
  exists v w',
    last Demo.collaborators None false true false false false false
      Faulty.passing_world = (Ret v, w') /\ (v = 0%Z \/ v = 1%Z).
Proof.
  eexists _, _. split; [vm_compute; reflexivity|].
  eapply (last_exit_status_range Demo.collaborators None
            false true false false false false Faulty.passing_world).
  vm_compute. reflexivity.
Defined.

(** X5.  However [last] ends (return or exception, any mode), it has asked
    the gateway exactly once, to open the store at [repo_url]; it never
    asks it to create one. *)
Theorem last_opens_once
    (C : Collaborators) (repo_url : option string)
    (subunit_out pretty_out color sa aa sb : bool) (w : World (Heap C)) :
  w_gateway_calls
    (snd (last C repo_url subunit_out pretty_out color sa aa sb w))
  = w_gateway_calls w ++ [GetRepoOpen repo_url].
Proof.
  revert w. change (adds_calls [GetRepoOpen repo_url]
                      (last C repo_url subunit_out pretty_out color sa aa sb)).
  unfold last. apply adds_calls_bind.
  - apply adds_calls_try_except.
    + apply adds_calls_bind; [apply adds_calls_get_repo_open|].
      intros repo. apply adds_calls_ret.
    + intros e h He. destruct e; try done. injection He as <-.
      apply adds_calls_bind; [apply adds_calls_stdout_write|].
      intros _. apply adds_calls_ret.
  - intros [repo|code]; [|apply adds_calls_ret].
    apply adds_calls_bind.
    + apply adds_calls_try_except.
      * apply adds_calls_bind; [apply adds_calls_lift|].
        intros run. apply adds_calls_ret.
      * intros e h He. destruct e; try done. injection He as <-.
        apply adds_calls_bind; [apply adds_calls_stdout_write|].
        intros _. apply adds_calls_ret.
    + intros [run|code]; [|apply adds_calls_ret].
      destruct subunit_out.
      * apply adds_calls_bind; [apply adds_calls_lift|]. intros stream.
        apply adds_calls_bind; [apply adds_calls_lift|]. intros _.
        apply adds_calls_ret.
      * apply adds_calls_bind; [apply adds_calls_lift|]. intros case.
        apply adds_calls_bind; [apply (adds_calls_lookup_previous C repo)|].
        intros prev. apply adds_calls_bind.
        { apply (adds_calls_render_with C run case prev). }
        intros []; apply adds_calls_ret.
Qed.

Section LastRendered.
Variable C : Collaborators.
Implicit Types w : World (Heap C).

(** [last] in a rendered mode, once the test of the latest run and the
    previous run are at hand. *)
Lemma last_rendered repo_url p c sa aa sb w repo s1 run s2 case s3 prev w4 :
  util_get_repo_open C repo_url (w_sys w) = (Ret repo, s1) ->
  repo_get_latest_run C repo s1 = (Ret run, s2) ->
  run_get_test C run s2 = (Ret case, s3) ->
  lookup_previous C repo (loaded_world w repo_url s3) = (Ret prev, w4) ->
  last C repo_url false p c sa aa sb w =
  (let! failed := render_with C run case prev p c sa aa sb in
   if (failed : bool) then ret 1%Z else ret 0%Z) w4.
Proof.
  intros Hopen Hlatest Hcase Hprev.
  rewrite (last_loaded C _ _ _ _ _ _ _ _ _ _ _ _ Hopen Hlatest).
  cbv iota. unfold render_failed. rewrite bind_assoc.
  rewrite (bind_ok _ _ _ case (loaded_world w repo_url s3)); cycle 1.
  { unfold lift, loaded_world. cbn [w_sys w_gateway_calls]. by rewrite Hcase. }
  rewrite bind_assoc. by rewrite (bind_ok _ _ _ _ _ Hprev).
Qed.

Lemma lookup_previous_key_error repo w n s1 str_e s2 :
  repo_latest_id C repo (w_sys w) = (Ret n, s1) ->
  repo_get_test_run C repo (n - 1)%Z s1 = (Raise (KeyError str_e), s2) ->
  lookup_previous C repo w = (Ret None, with_sys w s2).
Proof.
  intros Hid Hrun. unfold lookup_previous, try_except, bind, lift.
  rewrite Hid. cbn [w_sys w_gateway_calls]. by rewrite Hrun.
Qed.

End LastRendered.

(** X6.  A store with no run before the latest one: when the lookup of run
    [latest_id() - 1] raises [KeyError], [last] goes on and renders the
    latest run with no previous run, from the state the lookup left. *)
Theorem last_previous_run_missing
    (C : Collaborators) (repo_url : option string)
    (pretty_out color sa aa sb : bool) (w : World (Heap C))
    (repo : Repository C) (run : Run C) (case : TestCase C) (n : Z)
    (str_e : string) (s1 s2 s3 s4 s5 : Sys (Heap C)) :
  util_get_repo_open C repo_url (w_sys w) = (Ret repo, s1) ->
  repo_get_latest_run C repo s1 = (Ret run, s2) ->
  run_get_test C run s2 = (Ret case, s3) ->
  repo_latest_id C repo s3 = (Ret n, s4) ->
  repo_get_test_run C repo (n - 1)%Z s4 = (Raise (KeyError str_e), s5) ->
  last C repo_url false pretty_out color sa aa sb w =
  (let! failed := render_with C run case None pretty_out color sa aa sb in
   if (failed : bool) then ret 1%Z else ret 0%Z)
    (loaded_world w repo_url s5).
Proof.
  intros Hopen Hlatest Hcase Hid Hprev.
  apply (last_rendered C _ _ _ _ _ _ _ _ _ _ _ _ _ _ _ Hopen Hlatest Hcase).
  by rewrite (lookup_previous_key_error C repo _ n s4 str_e s5).
Qed.

Lemma last_previous_run_missing_witness :
  fst (last Demo.collaborators None false false false false false false
         Faulty.passing_world) = Ret 0%Z.
Proof.
  rewrite (last_previous_run_missing Demo.collaborators None
             false false false false false Faulty.passing_world
             [Faulty.passing_run] Faulty.passing_run
             (Demo.run_results Faulty.passing_run) 0%Z "No such run."
             (w_sys Faulty.passing_world) (w_sys Faulty.passing_world)
             (w_sys Faulty.passing_world) (w_sys Faulty.passing_world)
             (w_sys Faulty.passing_world)
             eq_refl eq_refl eq_refl eq_refl eq_refl).
  reflexivity.
Defined.

(** X7.  In the structured mode [stopTestRun] runs even when replaying the
    test raises: [last] then ends with that exception, in the state
    [stopTestRun] left, and the verdict is never asked for. *)
Theorem last_stops_test_run_on_error
    (C : Collaborators) (repo_url : option string)
    (color sa aa sb : bool) (w w4 : World (Heap C))
    (repo : Repository C) (run : Run C) (case : TestCase C)
    (prev : option (Run C)) (output_result : Collector C)
    (summary : Summary C) (e : exn)
    (s1 s2 s3 s5 s6 s7 s8 s9 : Sys (Heap C)) :
  util_get_repo_open C repo_url (w_sys w) = (Ret repo, s1) ->
  repo_get_latest_run C repo s1 = (Ret run, s2) ->
  run_get_test C run s2 = (Ret case, s3) ->
  lookup_previous C repo (loaded_world w repo_url s3) = (Ret prev, w4) ->
  CLITestResult C run prev (w_sys w4) = (Ret output_result, s5) ->
  get_summary C output_result s5 = (Ret summary, s6) ->
  startTestRun C output_result s6 = (Ret tt, s7) ->
  case_run C case output_result s7 = (Raise e, s8) ->
  stopTestRun C output_result s8 = (Ret tt, s9) ->
  last C repo_url false false color sa aa sb w = (Raise e, with_sys w4 s9).
Proof.
  intros Hopen Hlatest Hcase Hprev Hres Hsum Hstart Hrun Hstop.
  rewrite (last_rendered C _ _ _ _ _ _ _ _ _ _ _ _ _ _ _
             Hopen Hlatest Hcase Hprev).
  unfold render_with, bind, try_finally, lift. cbn [negb].
  rewrite Hres. cbn [w_sys w_gateway_calls]. rewrite Hsum.
  cbn [w_sys w_gateway_calls]. rewrite Hstart.
  cbn [w_sys w_gateway_calls]. rewrite Hrun.
  cbn [w_sys w_gateway_calls]. by rewrite Hstop.
Qed.

Lemma last_stops_test_run_on_error_witness :
  fst (last (Faulty.collaborators
               (Faulty.case_run_fails (OtherError "RuntimeError")))
         None false false false false false false Demo.failing_world)
    = Raise (OtherError "RuntimeError") /\
  stdout (w_sys (snd (last (Faulty.collaborators
                              (Faulty.case_run_fails (OtherError "RuntimeError")))
                        None false false false false false false
                        Demo.failing_world))) = "PASSED".
Proof.
  rewrite (last_stops_test_run_on_error
             (Faulty.collaborators
                (Faulty.case_run_fails (OtherError "RuntimeError")))
             None false false false false Demo.failing_world
             (loaded_world Demo.failing_world None (w_sys Demo.failing_world))
             [Demo.failing_run] Demo.failing_run
             (Demo.run_results Demo.failing_run) None tt tt
             (OtherError "RuntimeError")
             (w_sys Demo.failing_world) (w_sys Demo.failing_world)
             (w_sys Demo.failing_world) (w_sys Demo.failing_world)
             (w_sys Demo.failing_world) (w_sys Demo.failing_world)
             (w_sys Demo.failing_world)
             (printed (w_sys Demo.failing_world) "PASSED")
             eq_refl eq_refl eq_refl eq_refl eq_refl eq_refl eq_refl eq_refl
             eq_refl).
  split; reflexivity.
Defined.

(** X8.  With raw output, an exception raised while the stream is copied
    leaves [last] as it is: there is no exit status for it. *)
Theorem last_raw_copy_failure_propagates
    (C : Collaborators) (repo_url : option string)
    (pretty_out color sa aa sb : bool) (w : World (Heap C))
    (repo : Repository C) (run : Run C) (stream : Stream C) (e : exn)
    (s1 s2 s3 s4 : Sys (Heap C)) :
  util_get_repo_open C repo_url (w_sys w) = (Ret repo, s1) ->
  repo_get_latest_run C repo s1 = (Ret run, s2) ->
  run_get_subunit_stream C run s2 = (Ret stream, s3) ->
  output_stream C stream s3 = (Raise e, s4) ->
  last C repo_url true pretty_out color sa aa sb w
  = (Raise e, loaded_world w repo_url s4).
Proof.
  intros Hopen Hlatest Hstream Hcopy.
  rewrite (last_loaded C _ _ _ _ _ _ _ _ _ _ _ _ Hopen Hlatest).
  unfold bind, lift, loaded_world. cbn [w_sys w_gateway_calls].
  rewrite Hstream. cbn [w_sys w_gateway_calls]. by rewrite Hcopy.
Qed.

Lemma last_raw_copy_failure_propagates_witness :
  fst (last (Faulty.collaborators (Faulty.copy_fails (OSError (Some 32%Z))))
         None true true false false false false Demo.failing_world)
  = Raise (OSError (Some 32%Z)).
Proof.
  by rewrite (last_raw_copy_failure_propagates
                (Faulty.collaborators (Faulty.copy_fails (OSError (Some 32%Z))))
                None true false false false false Demo.failing_world
                [Demo.failing_run] Demo.failing_run
                (Demo.run_results Demo.failing_run) (OSError (Some 32%Z))
                (w_sys Demo.failing_world) (w_sys Demo.failing_world)
                (w_sys Demo.failing_world) (w_sys Demo.failing_world)
                eq_refl eq_refl eq_refl eq_refl).
Defined.

(** X9.  In a rendered mode [last] returns 0 when the renderer reports no
    failure, and ends with the renderer's exception when it raises one. *)
Theorem last_rendered_success_and_errors
    (C : Collaborators) (repo_url : option string) (color sa aa sb : bool)
    (w : World (Heap C)) (repo : Repository C) (run : Run C)
    (s1 s2 : Sys (Heap C)) :
  util_get_repo_open C repo_url (w_sys w) = (Ret repo, s1) ->
  repo_get_latest_run C repo s1 = (Ret run, s2) ->
  (forall pretty_out w3,
     render_failed C repo run pretty_out color sa aa sb
       (loaded_world w repo_url s2) = (Ret false, w3) ->
     last C repo_url false pretty_out color sa aa sb w = (Ret 0%Z, w3)) /\
  (forall pretty_out e w3,
     render_failed C repo run pretty_out color sa aa sb
       (loaded_world w repo_url s2) = (Raise e, w3) ->
     last C repo_url false pretty_out color sa aa sb w = (Raise e, w3)).
Proof.
  intros Hopen Hlatest. split.
  - intros pretty_out w3 Hok.
    rewrite (last_loaded C _ _ _ _ _ _ _ _ _ _ _ _ Hopen Hlatest).
    by rewrite (bind_ok _ _ _ _ _ Hok).
  - intros pretty_out e w3 Herr.
    rewrite (last_loaded C _ _ _ _ _ _ _ _ _ _ _ _ Hopen Hlatest).
    by rewrite (bind_raise _ _ _ _ _ Herr).
Qed.

Lemma last_rendered_success_and_errors_witness :
  fst (last Demo.collaborators None false true false false false false
         Faulty.passing_world) = Ret 0%Z /\
  fst (last (Faulty.collaborators
               (Faulty.previous_fails (OtherError "IOError")))
         None false true false false false false Faulty.passing_world)
    = Raise (OtherError "IOError").
Proof.
  split.
  - destruct (last_rendered_success_and_errors Demo.collaborators None
                false false false false Faulty.passing_world
                [Faulty.passing_run] Faulty.passing_run
                (w_sys Faulty.passing_world) (w_sys Faulty.passing_world)
                eq_refl eq_refl) as [H _].
    by rewrite (H true _ eq_refl).
  - destruct (last_rendered_success_and_errors
                (Faulty.collaborators
                   (Faulty.previous_fails (OtherError "IOError")))
                None false false false false Faulty.passing_world
                [Faulty.passing_run] Faulty.passing_run
                (w_sys Faulty.passing_world) (w_sys Faulty.passing_world)
                eq_refl eq_refl) as [_ H].
    by rewrite (H true (OtherError "IOError") _ eq_refl).
Defined.

(** ** Further properties of [Last.take_action] *)

(** X10.  How [Last.take_action] settles the rendering, in one formula for
    the cases with and without a user configuration: once the configuration
    is loaded and the two attachment flags are not both given, it is
    [last] called with
    - the trace on when forced, or when neither the command line nor the
      [last] section turns it off;
    - colour when the command line or the [last] section asks for it;
    - the attachment flags of the command line when one is given, and
      otherwise those of the [run] section, which count only when the
      [last] section is there and not empty. *)
Theorem last_take_action_settings
    (C : Collaborators) (app_args : AppArgs) (args : LastArgs)
    (w : World (Heap C)) (user_conf : option UserConfig)
    (s1 : Sys (Heap C)) :
  get_user_config C (app_user_config app_args) (w_sys w)
    = (Ret user_conf, s1) ->
  suppress_attachments args && all_attachments args = false ->
  (truthy_dict (getattr_last user_conf) = true ->
   is_Some (user_conf ≫= uc_run)) ->
  let flag_given := suppress_attachments args || all_attachments args in
  Last_take_action C app_args args w =
  last C (app_repo_url app_args) (subunit args)
    (force_subunit_trace args
     || (negb (no_subunit_trace args)
         && negb (dict_get (profile_last user_conf) "no-subunit-trace")))
    (color args || dict_get (profile_last user_conf) "color")
    (if flag_given then suppress_attachments args
     else dict_get (profile_run user_conf) "suppress-attachments")
    (if flag_given then all_attachments args
     else dict_get (profile_run user_conf) "all-attachments")
    (show_binary_attachments args)
    (with_sys w s1).
Proof.
  intros Hconf Hboth Hrun. unfold Last_take_action.
  rewrite (bind_ok _ _ _ _ _ (lift_eq _ _ _ _ Hconf)).
  rewrite Hboth. unfold profile_last, profile_run, with_sys.
  destruct (truthy_dict (getattr_last user_conf)) eqn:Hlast.
  - destruct (Hrun eq_refl) as [conf_run ->].
    change (default ∅ (Some conf_run)) with conf_run.
    generalize (dict_get (default ∅ (getattr_last user_conf))
                         "no-subunit-trace").
    generalize (dict_get (default ∅ (getattr_last user_conf)) "color").
    generalize (dict_get conf_run "suppress-attachments").
    generalize (dict_get conf_run "all-attachments").
    intros conf_aa conf_sa conf_color conf_no_trace.
    destruct (suppress_attachments args), (all_attachments args);
      [done| | |];
      destruct conf_no_trace, (no_subunit_trace args),
               (force_subunit_trace args); reflexivity.
  - assert (default ∅ (getattr_last user_conf) = ∅) as ->.
    { destruct (getattr_last user_conf) as [m|]; [|done]. cbn in Hlast.
      apply negb_false_iff, bool_decide_eq_true in Hlast. by subst m. }
    unfold dict_get. rewrite !lookup_empty. cbn [default].
    destruct (suppress_attachments args), (all_attachments args);
      [done| | |];
      destruct (no_subunit_trace args), (force_subunit_trace args),
               (color args); reflexivity.
Qed.

Lemma last_take_action_settings_witness :
  Last_take_action (Faulty.collaborators (Faulty.with_user_conf Faulty.profile))
    Demo.file_app Faulty.all_attachments_only Demo.failing_world
  = last (Faulty.collaborators (Faulty.with_user_conf Faulty.profile))
      None false false true false true false Demo.failing_world.
Proof.
  exact (last_take_action_settings
           (Faulty.collaborators (Faulty.with_user_conf Faulty.profile))
           Demo.file_app Faulty.all_attachments_only Demo.failing_world
           (Some Faulty.profile) (w_sys Demo.failing_world)
           eq_refl eq_refl (fun _ => ex_intro _ _ eq_refl)).
Defined.

(** X11.  With [--subunit], no other option of [last] changes what the
    command does, as long as [--suppress-attachments] and
    [--all-attachments] are not given together: two invocations from the
    same world end in the same outcome and the same world. *)
Theorem last_take_action_raw_ignores_rendering
    (C : Collaborators) (app_args : AppArgs) (args1 args2 : LastArgs)
    (w : World (Heap C)) :
  subunit args1 = true -> subunit args2 = true ->
  suppress_attachments args1 && all_attachments args1 = false ->
  suppress_attachments args2 && all_attachments args2 = false ->
  Last_take_action C app_args args1 w = Last_take_action C app_args args2 w.
Proof.
  intros Hraw1 Hraw2 Hboth1 Hboth2. unfold Last_take_action, bind at 1 5.
  destruct (lift (get_user_config C (app_user_config app_args)) w)
    as [[user_conf|e] w1]; [|done].
  rewrite Hboth1, Hboth2, Hraw1, Hraw2. unfold bind at 1 4. cbn [ret].
  destruct (truthy_dict (getattr_last user_conf)).
  - destruct (user_conf ≫= uc_run) as [conf_run|]; [|done].
    destruct (suppress_attachments args1), (all_attachments args1);
      [done| | |];
      destruct (suppress_attachments args2), (all_attachments args2);
      try done; reflexivity.
  - reflexivity.
Qed.

Lemma last_take_action_raw_ignores_rendering_witness :
  Last_take_action Demo.collaborators Demo.file_app Faulty.raw_plain
    Demo.failing_world
  = Last_take_action Demo.collaborators Demo.file_app Faulty.raw_decorated
      Demo.failing_world.
Proof.
  exact (last_take_action_raw_ignores_rendering Demo.collaborators
           Demo.file_app Faulty.raw_plain Faulty.raw_decorated
           Demo.failing_world eq_refl eq_refl eq_refl eq_refl).
Defined.

(** ** Further properties of [init] *)

Lemma init_not_sql C repo_type repo_url w :
  repo_type <> "sql" ->
  init C repo_type repo_url w =
  try_except
    (get_repo_initialise C repo_type repo_url ;; ret None)
    (fun e =>
       match e with
       | OSError errno =>
           if negb (bool_decide (errno = Some EEXIST)) then None
           else Some (
             let repo_path := if truthy repo_url then default "" repo_url
                              else "./stestr" in
             stdout_write (already_exists_message repo_path) ;;
             ret (Some 1%Z))
       | _ => None
       end) w.
Proof.
  intros Hty. unfold init.
  by destruct (String.eqb_spec repo_type "sql") as [?|_].
Qed.

Lemma get_repo_initialise_eq C repo_type repo_url w r s1 :
  util_get_repo_initialise C repo_type repo_url (w_sys w) = (r, s1) ->
  get_repo_initialise C repo_type repo_url w
  = (r, initialised_by w repo_type repo_url s1).
Proof.
  intros H. unfold get_repo_initialise, bind, log_gateway, lift.
  cbn [w_sys w_gateway_calls]. by rewrite H.
Qed.

Lemma already_exists_message_names repo_path :
  contains (already_exists_message repo_path) repo_path.
Proof.
  exists "The specified repository directory ",
         (" already exists. "
          +:+ "Please check if the repository already exists or "
          +:+ "select a different path" +:+ String LF EmptyString).
  reflexivity.
Qed.

(** X12.  When the gateway refuses to create the store because it exists
    ([OSError] with [EEXIST]), [init] returns 1 after writing one message to
    the output stream; with a [repo_url] the message contains it. *)
Theorem init_existing_repository
    (C : Collaborators) (repo_type repo_url : string)
    (w : World (Heap C)) (s1 : Sys (Heap C)) :
  repo_type <> "sql" ->
  repo_url <> "" ->
  util_get_repo_initialise C repo_type (Some repo_url) (w_sys w)
    = (Raise (OSError (Some EEXIST)), s1) ->
  init C repo_type (Some repo_url) w
  = (Ret (Some 1%Z),
     initialised_by w repo_type (Some repo_url)
       (printed s1 (already_exists_message repo_url))) /\
  contains (already_exists_message repo_url) repo_url.
Proof.
  intros Hty Hurl Hinit. split; [|apply already_exists_message_names].
  rewrite init_not_sql by done. unfold try_except.
  rewrite (bind_raise _ _ _ _ _ (get_repo_initialise_eq _ _ _ _ _ _ Hinit)).
  destruct repo_url; [done|]. reflexivity.
Qed.

Lemma init_existing_repository_witness :
  fst (init Demo.collaborators "file" (Some "/srv/results")
         (Demo.world {[ "/srv/results" := [] ]}))
  = Ret (Some 1%Z).
Proof.
  destruct (init_existing_repository Demo.collaborators "file" "/srv/results"
              (Demo.world {[ "/srv/results" := [] ]})
              (w_sys (Demo.world {[ "/srv/results" := [] ]})))
    as [H _]; [discriminate | discriminate | reflexivity |].
  by rewrite H.
Defined.

(** X13.  [init] handles [OSError] with [EEXIST] and nothing else: any
    other exception of the gateway, an [OSError] with another error number
    included, leaves [init] as it is and [init] writes no message. *)
Theorem init_other_errors_propagate
    (C : Collaborators) (repo_type : string) (repo_url : option string)
    (w : World (Heap C)) (e : exn) (s1 : Sys (Heap C)) :
  repo_type <> "sql" ->
  e <> OSError (Some EEXIST) ->
  util_get_repo_initialise C repo_type repo_url (w_sys w) = (Raise e, s1) ->
  init C repo_type repo_url w
  = (Raise e, initialised_by w repo_type repo_url s1).
Proof.
  intros Hty He Hinit. rewrite init_not_sql by done. unfold try_except.
  rewrite (bind_raise _ _ _ _ _ (get_repo_initialise_eq _ _ _ _ _ _ Hinit)).
  destruct e as [| |errno| | | | |]; try done.
  destruct (bool_decide_reflect (errno = Some EEXIST)) as [->|?]; done.
Qed.

Lemma init_other_errors_propagate_witness :
  fst (init (Faulty.collaborators
               (Faulty.initialise_fails (OSError (Some 13%Z))))
         "file" None Demo.fresh_world)
  = Raise (OSError (Some 13%Z)).
Proof.
  by rewrite (init_other_errors_propagate
                (Faulty.collaborators
                   (Faulty.initialise_fails (OSError (Some 13%Z))))
                "file" None Demo.fresh_world (OSError (Some 13%Z))
                (w_sys Demo.fresh_world)
                ltac:(discriminate) ltac:(discriminate) eq_refl).
Defined.

(** X14.  For the [sql] type, the deprecation warning goes to the error
    stream first and is handed to [warnings.warn].  When that raises
    (warnings turned into errors), [init] ends there and the gateway is
    never asked; when it returns and the store is created, [init] ends
    without a value. *)
Theorem init_sql_deprecation
    (C : Collaborators) (repo_url : option string) (w : World (Heap C)) :
  (forall e s1,
     warnings_warn C sql_deprecation_message
       (warned (w_sys w) sql_deprecation_message) = (Raise e, s1) ->
     init C "sql" repo_url w = (Raise e, with_sys w s1)) /\
  (forall s1 repo s2,
     warnings_warn C sql_deprecation_message
       (warned (w_sys w) sql_deprecation_message) = (Ret tt, s1) ->
     util_get_repo_initialise C "sql" repo_url s1 = (Ret repo, s2) ->
     init C "sql" repo_url w = (Ret None, initialised_by w "sql" repo_url s2)).
Proof.
  split.
  - intros e s1 Hwarn. unfold init, bind, stderr_write, lift.
    cbn [String.eqb Ascii.eqb Bool.eqb w_sys w_gateway_calls].
    unfold warned in Hwarn. by rewrite Hwarn.
  - intros s1 repo s2 Hwarn Hinit.
    unfold init, bind, stderr_write, lift, try_except, get_repo_initialise,
      bind, log_gateway, lift.
    cbn [String.eqb Ascii.eqb Bool.eqb w_sys w_gateway_calls].
    unfold warned in Hwarn. rewrite Hwarn.
    cbn [w_sys w_gateway_calls]. by rewrite Hinit.
Qed.

Lemma init_sql_deprecation_witness :
  init (Faulty.collaborators
          (Faulty.warn_fails (OtherError "DeprecationWarning")))
    "sql" None Demo.fresh_world
  = (Raise (OtherError "DeprecationWarning"),
     with_sys Demo.fresh_world
       (warned (w_sys Demo.fresh_world) sql_deprecation_message)) /\
  fst (init Demo.collaborators "sql" None Demo.fresh_world) = Ret None.
Proof.
  split.
  - destruct (init_sql_deprecation
                (Faulty.collaborators
                   (Faulty.warn_fails (OtherError "DeprecationWarning")))
                None Demo.fresh_world) as [H _].
    exact (H (OtherError "DeprecationWarning") _ eq_refl).
  - destruct (init_sql_deprecation Demo.collaborators None Demo.fresh_world)
      as [_ H].
    by rewrite (H _ [] _ eq_refl eq_refl).
Defined.

(** X15.  However [init] ends, it has asked the gateway at most once, to
    create the store of the given type at the given location, and never to
    open one; it has not asked at all only when the deprecation warning of
    the [sql] type raised. *)
Theorem init_gateway_calls
    (C : Collaborators) (repo_type : string) (repo_url : option string)
    (w : World (Heap C)) :
  w_gateway_calls (snd (init C repo_type repo_url w))
    = w_gateway_calls w ++ [GetRepoInitialise repo_type repo_url] \/
  (repo_type = "sql" /\
   w_gateway_calls (snd (init C repo_type repo_url w)) = w_gateway_calls w /\
   exists e, fst (init C repo_type repo_url w) = Raise e).
Proof.
  assert (adds_calls [GetRepoInitialise repo_type repo_url]
            (try_except
               (get_repo_initialise C repo_type repo_url ;; ret None)
               (fun e =>
                  match e with
                  | OSError errno =>
                      if negb (bool_decide (errno = Some EEXIST)) then None
                      else Some (
                        let repo_path :=
                          if truthy repo_url then default "" repo_url
                          else "./stestr" in
                        stdout_write (already_exists_message repo_path) ;;
                        ret (Some 1%Z))
                  | _ => None
                  end))) as Hbody.
  { apply adds_calls_try_except.
    - apply adds_calls_bind; [apply adds_calls_get_repo_initialise|].
      intros _. apply adds_calls_ret.
    - intros e h He. destruct e as [| |errno| | | | |]; try done.
      destruct (negb _); [done|]. injection He as <-.
      apply adds_calls_bind; [apply adds_calls_stdout_write|].
      intros _. apply adds_calls_ret. }
  unfold init. destruct (String.eqb_spec repo_type "sql") as [->|Hty].
  - destruct ((stderr_write sql_deprecation_message;;
               lift (warnings_warn C sql_deprecation_message)) w)
      as [[[]|e] w1] eqn:Hpre.
    + left. rewrite (bind_ok _ _ _ _ _ Hpre), Hbody.
      assert (w_gateway_calls w1 = w_gateway_calls w) as ->; [|done].
      change w1 with (snd (Ret (), w1)). rewrite <- Hpre.
      unfold bind, stderr_write. cbn.
      by rewrite lift_gateway_calls.
    + right. rewrite (bind_raise _ _ _ _ _ Hpre).
      split; [reflexivity|]. split; [|exists e; reflexivity].
      cbn [snd]. change w1 with (snd (Raise (A:=unit) e, w1)).
      rewrite <- Hpre. unfold bind, stderr_write. cbn.
      by rewrite lift_gateway_calls.
  - left. unfold bind at 1. cbn [ret]. apply Hbody.
Qed.

(** ** Further properties of [get_run_command] *)

Section ResolverFacts.
Variable C : Collaborators.
Implicit Types w : World (Heap C).

Lemma pure_step_of_outcome {A} (r : outcome A) :
  pure_step (Heap:=Heap C) (of_outcome r).
Proof. by intros w. Qed.

Lemma resolve_test_path_pure self tp : pure_step (resolve_test_path C self tp).
Proof.
  intros w. unfold resolve_test_path.
  destruct (negb (truthy tp) && _); [done|]. by destruct (negb (truthy tp)).
Qed.

Lemma resolve_top_dir_pure self td : pure_step (resolve_top_dir C self td).
Proof.
  intros w. unfold resolve_top_dir.
  destruct (negb (truthy td) && _); [done|]. by destruct (negb (truthy td)).
Qed.

Lemma resolve_python_pure pf : pure_step (resolve_python C pf).
Proof.
  intros w. unfold resolve_python.
  destruct (String.eqb _ _).
  - by destruct (negb _).
  - destruct (truthy (environ_PYTHON pf)); [done|].
    by destruct (truthy (sys_executable pf)).
Qed.

Lemma resolve_group_regex_pure self args :
  pure_step (resolve_group_regex C self args).
Proof.
  intros w. unfold resolve_group_regex, bind.
  destruct (negb _ && _).
  - unfold of_outcome at 1.
    destruct (getboolean _ _ _) as [b|e]; [|done]. cbn [ret].
    destruct (negb _ && _); [|done].
    unfold of_outcome. by destruct (get _ _ _).
  - cbn [ret]. destruct (negb _ && _); [|done].
    unfold of_outcome. by destruct (get _ _ _).
Qed.

Lemma make_group_callback_pure g : pure_step (make_group_callback C g).
Proof.
  intros w. unfold make_group_callback.
  destruct (truthy g); [|done]. by destruct (Re.re_compile _).
Qed.

Lemma pure_step_eq {A} (c : M (Heap C) A) w r w' :
  pure_step c -> c w = (r, w') -> c w = (r, w) /\ w' = w.
Proof.
  intros Hpure Hc. specialize (Hpure w). rewrite Hc in Hpure. cbn in Hpure.
  by subst w'.
Qed.

(** What a call that returns went through. *)
Lemma get_run_command_returned pf self args w d w' :
  get_run_command C pf self args w = (Ret d, w') ->
  exists tp td py g cb repo s1,
    resolve_test_path C self (test_path args) w = (Ret tp, w) /\
    resolve_top_dir C self (top_dir args) w = (Ret td, w) /\
    resolve_python C pf w = (Ret py, w) /\
    resolve_group_regex C self args w = (Ret g, w) /\
    make_group_callback C g w = (Ret cb, w) /\
    util_get_repo_open C (repo_url args) (w_sys w) = (Ret repo, s1) /\
    w' = loaded_world w (repo_url args) s1 /\
    d = {| f_test_ids := test_ids args;
           f_cmd_template :=
             command_template
               (if path_exists pf (quoted py) then quoted py else py)
               (_sanitize_path pf td) (_sanitize_path pf tp);
           f_listopt := "--list";
           f_idoption := "--load-list $IDFILE";
           f_repository := repo;
           f_test_filters := regexes args;
           f_group_callback := cb;
           f_serial := serial args;
           f_worker_path := worker_path args;
           f_concurrency := concurrency args;
           f_exclude_list := exclude_list args;
           f_exclude_regex := exclude_regex args;
           f_include_list := include_list args;
           f_randomize := randomize args |}.
Proof.
  unfold get_run_command, bind.
  destruct (resolve_test_path C self _ w) as [[tp|e] w0] eqn:H1; [|done].
  apply pure_step_eq in H1 as [H1 ->]; [|apply resolve_test_path_pure].
  destruct (resolve_top_dir C self _ w) as [[td|e] w0] eqn:H2; [|done].
  apply pure_step_eq in H2 as [H2 ->]; [|apply resolve_top_dir_pure].
  destruct (resolve_python C pf w) as [[py|e] w0] eqn:H3; [|done].
  apply pure_step_eq in H3 as [H3 ->]; [|apply resolve_python_pure].
  destruct (resolve_group_regex C self args w) as [[g|e] w0] eqn:H4; [|done].
  apply pure_step_eq in H4 as [H4 ->]; [|apply resolve_group_regex_pure].
  destruct (make_group_callback C g w) as [[cb|e] w0] eqn:H5; [|done].
  apply pure_step_eq in H5 as [H5 ->]; [|apply make_group_callback_pure].
  unfold get_repo_open, bind, log_gateway, lift.
  cbn [w_sys w_gateway_calls].
  destruct (util_get_repo_open C _ _) as [[repo|e] s1] eqn:H6; [|done].
  intros [= <- <-]. by exists tp, td, py, g, cb, repo, s1.
Qed.

End ResolverFacts.

(** X16.  Everything [get_run_command] settles, it settles before the
    gateway is asked for the repository: a call ends either with an
    exception and the world untouched, or after exactly one request to open
    the repository at [repo_url], with the fixture holding what the gateway
    returned or with the gateway's exception. *)
Theorem get_run_command_resolves_before_gateway
    (C : Collaborators) (pf : Platform) (self : TestrConf) (args : RunArgs)
    (w w' : World (Heap C))
    (r : outcome (TestProcessorFixture (Repository C))) :
  get_run_command C pf self args w = (r, w') ->
  (exists e, r = Raise e /\ w' = w) \/
  (exists r0 s1,
     util_get_repo_open C (repo_url args) (w_sys w) = (r0, s1) /\
     w' = loaded_world w (repo_url args) s1 /\
     match r, r0 with
     | Ret d, Ret repo => f_repository d = repo
     | Raise e, Raise e0 => e = e0
     | _, _ => False
     end).
Proof.
  unfold get_run_command, bind.
  destruct (resolve_test_path C self _ w) as [[tp|e] w0] eqn:H1.
  2:{ apply pure_step_eq in H1 as [_ ->]; [|apply resolve_test_path_pure].
      intros [= <- <-]. left. by exists e. }
  apply pure_step_eq in H1 as [_ ->]; [|apply resolve_test_path_pure].
  destruct (resolve_top_dir C self _ w) as [[td|e] w0] eqn:H2.
  2:{ apply pure_step_eq in H2 as [_ ->]; [|apply resolve_top_dir_pure].
      intros [= <- <-]. left. by exists e. }
  apply pure_step_eq in H2 as [_ ->]; [|apply resolve_top_dir_pure].
  destruct (resolve_python C pf w) as [[py|e] w0] eqn:H3.
  2:{ apply pure_step_eq in H3 as [_ ->]; [|apply resolve_python_pure].
      intros [= <- <-]. left. by exists e. }
  apply pure_step_eq in H3 as [_ ->]; [|apply resolve_python_pure].
  destruct (resolve_group_regex C self args w) as [[g|e] w0] eqn:H4.
  2:{ apply pure_step_eq in H4 as [_ ->]; [|apply resolve_group_regex_pure].
      intros [= <- <-]. left. by exists e. }
  apply pure_step_eq in H4 as [_ ->]; [|apply resolve_group_regex_pure].
  destruct (make_group_callback C g w) as [[cb|e] w0] eqn:H5.
  2:{ apply pure_step_eq in H5 as [_ ->]; [|apply make_group_callback_pure].
      intros [= <- <-]. left. by exists e. }
  apply pure_step_eq in H5 as [_ ->]; [|apply make_group_callback_pure].
  unfold get_repo_open, bind, log_gateway, lift.
  cbn [w_sys w_gateway_calls].
  destruct (util_get_repo_open C _ _) as [[repo|e] s1] eqn:H6;
    intros [= <- <-]; right; by eexists _, s1.
Qed.

Lemma get_run_command_resolves_before_gateway_witness :
  snd (get_run_command Demo.collaborators posix Demo.conf_with_test_path
         default_run_args Demo.fresh_world)
  = loaded_world Demo.fresh_world None (w_sys Demo.fresh_world).
Proof.
  destruct (get_run_command_resolves_before_gateway Demo.collaborators posix
              Demo.conf_with_test_path default_run_args Demo.fresh_world
              (snd (get_run_command Demo.collaborators posix
                      Demo.conf_with_test_path default_run_args
                      Demo.fresh_world))
              (fst (get_run_command Demo.collaborators posix
                      Demo.conf_with_test_path default_run_args
                      Demo.fresh_world)))
    as [(e & He & Hw) | (r0 & s1 & Hopen & Hw & Hr)].
  - vm_compute. reflexivity.
  - vm_compute in He. injection He as <-. vm_compute in Hw. discriminate.
  - rewrite Hw. vm_compute in Hopen. injection Hopen as <- <-. reflexivity.
Defined.

Section GroupRegexFacts.
Variable C : Collaborators.
Implicit Types w : World (Heap C).

Lemma resolve_group_regex_explicit self args w :
  truthy_flag (parallel_class args) = false ->
  truthy (group_regex args) = true ->
  resolve_group_regex C self args w = (Ret (group_regex args), w).
Proof.
  intros Hpc Hg. unfold resolve_group_regex, bind. rewrite Hpc, Hg.
  cbn [negb andb ret]. by rewrite Hg.
Qed.

Lemma resolve_group_regex_conf_parallel_class self args w :
  truthy_flag (parallel_class args) = false ->
  truthy (group_regex args) = false ->
  has_option (parser self) (section self) "parallel_class" = true ->
  getboolean (parser self) (section self) "parallel_class" = Ret true ->
  resolve_group_regex C self args w = (Ret (Some parallel_class_pattern), w).
Proof.
  intros Hpc Hg Hopt Hbool. unfold resolve_group_regex, bind, of_outcome.
  rewrite Hpc, Hg, Hopt, Hbool. reflexivity.
Qed.

Lemma resolve_group_regex_conf self args w :
  truthy_flag (parallel_class args) = false ->
  truthy (group_regex args) = false ->
  has_option (parser self) (section self) "parallel_class" = false \/
    getboolean (parser self) (section self) "parallel_class" = Ret false ->
  resolve_group_regex C self args w =
  if has_option (parser self) (section self) "group_regex"
  then (match get (parser self) (section self) "group_regex" with
        | Ret g => Ret (Some g)
        | Raise e => Raise e
        end, w)
  else (Ret (group_regex args), w).
Proof.
  intros Hpc Hg Hconf. unfold resolve_group_regex, bind, of_outcome.
  rewrite Hpc, Hg. cbn [negb andb].
  destruct (has_option (parser self) (section self) "parallel_class").
  - destruct Hconf as [?| ->]; [done|]. cbn [ret]. rewrite Hg. cbn [negb andb].
    destruct (has_option _ _ "group_regex"); [|done].
    by destruct (get _ _ _).
  - cbn [ret]. rewrite Hg. cbn [negb andb].
    destruct (has_option _ _ "group_regex"); [|done].
    by destruct (get _ _ _).
Qed.

End GroupRegexFacts.

(** X17.  With a pattern given as argument (and no [parallel_class]
    argument), the [parallel_class] and [group_regex] options of the
    configuration file play no part: two configuration files with the same
    name that agree on [test_path] and [top_dir] give the same outcome and
    the same world, whatever else they hold. *)
Theorem get_run_command_explicit_group_regex_ignores_conf
    (C : Collaborators) (pf : Platform) (self1 self2 : TestrConf)
    (args : RunArgs) (w : World (Heap C)) :
  truthy_flag (parallel_class args) = false ->
  truthy (group_regex args) = true ->
  config_file self1 = config_file self2 ->
  (forall option, option = "test_path" \/ option = "top_dir" ->
     has_option (parser self1) (section self1) option
       = has_option (parser self2) (section self2) option /\
     get (parser self1) (section self1) option
       = get (parser self2) (section self2) option) ->
  get_run_command C pf self1 args w = get_run_command C pf self2 args w.
Proof.
  intros Hpc Hg Hfile Hconf.
  destruct (Hconf "test_path" (or_introl eq_refl)) as [Hhas_tp Hget_tp].
  destruct (Hconf "top_dir" (or_intror eq_refl)) as [Hhas_td Hget_td].
  unfold get_run_command. apply bind_congr.
  { unfold resolve_test_path. by rewrite Hhas_tp, Hget_tp, Hfile. }
  intros tp w1. apply bind_congr.
  { unfold resolve_top_dir. by rewrite Hhas_td, Hget_td. }
  intros td w2. apply bind_ext. intros py w3. apply bind_congr; [|done].
  by rewrite !resolve_group_regex_explicit.
Qed.

Lemma get_run_command_explicit_group_regex_ignores_conf_witness :
  get_run_command Demo.collaborators posix
    (conf_of {[ "parallel_class" := "not a boolean";
                "group_regex" := "([^\.]*\.)*" ]})
    explicit_args Demo.initialised_world
  = get_run_command Demo.collaborators posix (conf_of ∅)
      explicit_args Demo.initialised_world.
Proof.
  apply (get_run_command_explicit_group_regex_ignores_conf
           Demo.collaborators posix
           (conf_of {[ "parallel_class" := "not a boolean";
                       "group_regex" := "([^\.]*\.)*" ]})
           (conf_of ∅) explicit_args Demo.initialised_world);
    [reflexivity | reflexivity | reflexivity |].
  intros option [-> | ->]; split; reflexivity.
Defined.

(** X18.  Without a pattern from the arguments, [parallel_class = true] in
    the configuration file selects the fixed pattern [([^\.]*\.)*], also
    when the file has a [group_regex] of its own. *)
Theorem get_run_command_conf_parallel_class
    (C : Collaborators) (pf : Platform) (self : TestrConf) (args : RunArgs)
    (w w' : World (Heap C)) (d : TestProcessorFixture (Repository C)) :
  truthy_flag (parallel_class args) = false ->
  truthy (group_regex args) = false ->
  has_option (parser self) (section self) "parallel_class" = true ->
  getboolean (parser self) (section self) "parallel_class" = Ret true ->
  get_run_command C pf self args w = (Ret d, w') ->
  f_group_callback d = Some (group_callback parallel_class_re).
Proof.
  intros Hpc Hg Hopt Hbool Hrun.
  apply get_run_command_returned in Hrun
    as (tp & td & py & g' & cb & repo & s1 & _ & _ & _ & H4 & H5 & _ & _ & ->).
  rewrite resolve_group_regex_conf_parallel_class in H4 by done.
  injection H4 as <-. rewrite make_group_callback_parallel_class in H5.
  by injection H5 as <-.
Qed.

Lemma get_run_command_conf_parallel_class_witness :
  exists d w',
    get_run_command Demo.collaborators posix
      (conf_of {[ "test_path" := "./tests"; "parallel_class" := "true";
                  "group_regex" := "(pkg\.)" ]})
      default_run_args Demo.initialised_world = (Ret d, w') /\
    f_group_callback d = Some (group_callback parallel_class_re).
Proof.
  eexists _, _. split; [vm_compute; reflexivity|].
  eapply (get_run_command_conf_parallel_class Demo.collaborators posix
            (conf_of {[ "test_path" := "./tests"; "parallel_class" := "true";
                        "group_regex" := "(pkg\.)" ]})
            default_run_args Demo.initialised_world);
    [reflexivity | reflexivity | reflexivity | reflexivity
    | vm_compute; reflexivity].
Defined.

(** X19.  A [group_regex] of the configuration file acts as the same
    pattern given as argument would: without a pattern from the arguments,
    and with [parallel_class] absent from the file or false there, the call
    ends as the call with the file's pattern as [group_regex] argument
    does, in outcome and world. *)
Theorem get_run_command_conf_group_regex_as_argument
    (C : Collaborators) (pf : Platform) (self : TestrConf) (args : RunArgs)
    (g : string) (w : World (Heap C)) :
  truthy_flag (parallel_class args) = false ->
  truthy (group_regex args) = false ->
  has_option (parser self) (section self) "parallel_class" = false \/
    getboolean (parser self) (section self) "parallel_class" = Ret false ->
  has_option (parser self) (section self) "group_regex" = true ->
  get (parser self) (section self) "group_regex" = Ret g ->
  get_run_command C pf self args w
  = get_run_command C pf self (with_group_regex args (Some g)) w.
Proof.
  intros Hpc Hg Hconf Hopt Hget.
  unfold get_run_command. apply bind_ext. intros tp w1.
  apply bind_ext. intros td w2. apply bind_ext. intros py w3.
  apply bind_congr; [|done].
  rewrite (resolve_group_regex_conf C self args) by done.
  rewrite Hopt, Hget.
  destruct (truthy (Some g)) eqn:Htruthy.
  - by rewrite resolve_group_regex_explicit.
  - rewrite (resolve_group_regex_conf C self (with_group_regex args (Some g)))
      by done.
    by rewrite Hopt, Hget.
Qed.

Lemma get_run_command_conf_group_regex_as_argument_witness :
  get_run_command Demo.collaborators posix
    (conf_of {[ "test_path" := "./tests"; "parallel_class" := "false";
                "group_regex" := "(pkg\.)" ]})
    default_run_args Demo.initialised_world
  = get_run_command Demo.collaborators posix
      (conf_of {[ "test_path" := "./tests"; "parallel_class" := "false";
                  "group_regex" := "(pkg\.)" ]})
      (with_group_regex default_run_args (Some "(pkg\.)"))
      Demo.initialised_world.
Proof.
  apply (get_run_command_conf_group_regex_as_argument Demo.collaborators
           posix
           (conf_of {[ "test_path" := "./tests"; "parallel_class" := "false";
                       "group_regex" := "(pkg\.)" ]})
           default_run_args "(pkg\.)" Demo.initialised_world);
    [reflexivity | reflexivity | right; reflexivity | reflexivity
    | reflexivity].
Defined.

(** X20.  With no pattern and no [parallel_class] anywhere (arguments and
    configuration file), the fixture has no classifier. *)
Theorem get_run_command_no_grouping
    (C : Collaborators) (pf : Platform) (self : TestrConf) (args : RunArgs)
    (w w' : World (Heap C)) (d : TestProcessorFixture (Repository C)) :
  truthy_flag (parallel_class args) = false ->
  truthy (group_regex args) = false ->
  has_option (parser self) (section self) "parallel_class" = false \/
    getboolean (parser self) (section self) "parallel_class" = Ret false ->
  has_option (parser self) (section self) "group_regex" = false ->
  get_run_command C pf self args w = (Ret d, w') ->
  f_group_callback d = None.
Proof.
  intros Hpc Hg Hconf Hopt Hrun.
  apply get_run_command_returned in Hrun
    as (tp & td & py & g' & cb & repo & s1 & _ & _ & _ & H4 & H5 & _ & _ & ->).
  rewrite resolve_group_regex_conf, Hopt in H4 by done.
  injection H4 as <-. unfold make_group_callback in H5. rewrite Hg in H5.
  by injection H5 as <-.
Qed.

Lemma get_run_command_no_grouping_witness :
  exists d w',
    get_run_command Demo.collaborators posix Demo.conf_with_test_path
      default_run_args Demo.initialised_world = (Ret d, w') /\
    f_group_callback d = None.
Proof.
  eexists _, _. split; [vm_compute; reflexivity|].
  eapply (get_run_command_no_grouping Demo.collaborators posix
            Demo.conf_with_test_path default_run_args Demo.initialised_world);
    [reflexivity | reflexivity | left; reflexivity | reflexivity
    | vm_compute; reflexivity].
Defined.

Section PathFacts.
Variable C : Collaborators.
Implicit Types w : World (Heap C).

Lemma resolve_test_path_argument self tp w :
  tp <> "" -> resolve_test_path C self (Some tp) w = (Ret tp, w).
Proof. intros Hne. unfold resolve_test_path. by destruct tp. Qed.

Lemma resolve_top_dir_argument self td w :
  td <> "" -> resolve_top_dir C self (Some td) w = (Ret td, w).
Proof. intros Hne. unfold resolve_top_dir. by destruct td. Qed.

Lemma sanitize_path_current_directory pf : _sanitize_path pf "./" = "./".
Proof.
  unfold _sanitize_path. by destruct (String.eqb (os_sep pf) "\").
Qed.

End PathFacts.

(** X21.  Paths given as arguments take precedence over the configuration
    file: with [test_path] and [top_dir] arguments, the command is built
    from these two, sanitized, whatever the file holds; without a
    [test_path] argument it is built from the file's [test_path]. *)
Theorem get_run_command_path_precedence
    (C : Collaborators) (pf : Platform) (self : TestrConf) (args : RunArgs)
    (w w' : World (Heap C)) (d : TestProcessorFixture (Repository C)) :
  get_run_command C pf self args w = (Ret d, w') ->
  (forall tp td,
     test_path args = Some tp -> tp <> "" ->
     top_dir args = Some td -> td <> "" ->
     exists python,
       f_cmd_template d
       = command_template python (_sanitize_path pf td)
           (_sanitize_path pf tp)) /\
  (forall tp,
     truthy (test_path args) = false ->
     get (parser self) (section self) "test_path" = Ret tp ->
     exists python top,
       f_cmd_template d
       = command_template python top (_sanitize_path pf tp)).
Proof.
  intros Hrun.
  apply get_run_command_returned in Hrun
    as (tp0 & td0 & py & g & cb & repo & s1 & H1 & H2 & _ & _ & _ & _ & _ & ->).
  split.
  - intros tp td Htp Hne Htd Hne'. rewrite Htp in H1. rewrite Htd in H2.
    rewrite resolve_test_path_argument in H1 by done.
    rewrite resolve_top_dir_argument in H2 by done.
    injection H1 as <-. injection H2 as <-. by eexists.
  - intros tp Harg Hget. unfold resolve_test_path in H1.
    rewrite Harg in H1. cbn [negb andb] in H1.
    destruct (has_option _ _ _); [|done].
    unfold of_outcome in H1. rewrite Hget in H1. injection H1 as <-.
    by eexists _, _.
Qed.

Lemma get_run_command_path_precedence_witness :
  exists d w',
    get_run_command Demo.collaborators windows
      (conf_of {[ "test_path" := "C:\other"; "top_dir" := "C:\other" ]})
      explicit_args Demo.initialised_world = (Ret d, w') /\
    f_cmd_template d
    = command_template "C:\Python39\python.exe" "./pkg" "./pkg/tests".
Proof.
  eexists _, _. split; [vm_compute; reflexivity|].
  edestruct (get_run_command_path_precedence Demo.collaborators windows
               (conf_of {[ "test_path" := "C:\other"; "top_dir" := "C:\other" ]})
               explicit_args Demo.initialised_world)
    as [H _]; [vm_compute; reflexivity|].
  destruct (H "./pkg/tests" "./pkg" eq_refl ltac:(discriminate)
              eq_refl ltac:(discriminate)) as [python Hcmd].
  reflexivity.
Defined.

(** X22.  [top_dir] defaults to [./]: with no [top_dir] argument and none
    in the configuration file, the command discovers from [-t "./"], on
    every platform. *)
Theorem get_run_command_default_top_dir
    (C : Collaborators) (pf : Platform) (self : TestrConf) (args : RunArgs)
    (w w' : World (Heap C)) (d : TestProcessorFixture (Repository C)) :
  truthy (top_dir args) = false ->
  has_option (parser self) (section self) "top_dir" = false ->
  get_run_command C pf self args w = (Ret d, w') ->
  exists python test_path,
    f_cmd_template d = command_template python "./" test_path.
Proof.
  intros Harg Hopt Hrun.
  apply get_run_command_returned in Hrun
    as (tp0 & td0 & py & g & cb & repo & s1 & _ & H2 & _ & _ & _ & _ & _ & ->).
  unfold resolve_top_dir in H2. rewrite Harg, Hopt in H2.
  injection H2 as <-. rewrite sanitize_path_current_directory.
  by eexists _, _.
Qed.

Lemma get_run_command_default_top_dir_witness :
  exists d w',
    get_run_command Demo.collaborators windows Demo.conf_with_test_path
      default_run_args Demo.initialised_world = (Ret d, w') /\
    f_cmd_template d
    = command_template "C:\Python39\python.exe" "./" "./tests".
Proof.
  eexists _, _. split; [vm_compute; reflexivity|].
  edestruct (get_run_command_default_top_dir Demo.collaborators windows
               Demo.conf_with_test_path default_run_args
               Demo.initialised_world)
    as (python & tp & Hcmd);
    [reflexivity | reflexivity | vm_compute; reflexivity |].
  reflexivity.
Defined.

(** X23.  The interpreter of the command.  On [win32] it is
    [sys.executable], whatever [PYTHON] is; elsewhere a non-empty [PYTHON]
    of the environment makes it the placeholder [${PYTHON}], left for the
    shell to expand, and [sys.executable] is not used. *)
Theorem get_run_command_interpreter
    (C : Collaborators) (pf : Platform) (self : TestrConf) (args : RunArgs)
    (w w' : World (Heap C)) (d : TestProcessorFixture (Repository C)) :
  get_run_command C pf self args w = (Ret d, w') ->
  (sys_platform pf = "win32" ->
   exists exe top_dir test_path,
     sys_executable pf = Some exe /\ exe <> "" /\
     f_cmd_template d
     = command_template
         (if path_exists pf (quoted exe) then quoted exe else exe)
         top_dir test_path) /\
  (sys_platform pf <> "win32" -> truthy (environ_PYTHON pf) = true ->
   exists top_dir test_path,
     f_cmd_template d
     = command_template
         (if path_exists pf (quoted "${PYTHON}")
          then quoted "${PYTHON}" else "${PYTHON}")
         top_dir test_path).
Proof.
  intros Hrun.
  apply get_run_command_returned in Hrun
    as (tp0 & td0 & py & g & cb & repo & s1 & _ & _ & H3 & _ & _ & _ & _ & ->).
  unfold resolve_python in H3. split.
  - intros Hwin. rewrite Hwin in H3. cbn [String.eqb Ascii.eqb Bool.eqb] in H3.
    destruct (sys_executable pf) as [[|a exe]|]; try done.
    injection H3 as <-. by eexists _, _, _.
  - intros Hwin Henv.
    destruct (String.eqb_spec (sys_platform pf) "win32"); [done|].
    rewrite Henv in H3. injection H3 as <-. by eexists _, _.
Qed.

Lemma get_run_command_interpreter_witness :
  (exists d w',
     get_run_command Demo.collaborators windows_with_PYTHON
       Demo.conf_with_test_path default_run_args Demo.initialised_world
     = (Ret d, w') /\
     f_cmd_template d
     = command_template "C:\Python39\python.exe" "./" "./tests") /\
  (exists d w',
     get_run_command Demo.collaborators posix_with_PYTHON
       Demo.conf_with_test_path default_run_args Demo.initialised_world
     = (Ret d, w') /\
     f_cmd_template d = command_template "${PYTHON}" "./" "./tests").
Proof.
  split.
  - eexists _, _. split; [vm_compute; reflexivity|].
    edestruct (get_run_command_interpreter Demo.collaborators
                 windows_with_PYTHON Demo.conf_with_test_path
                 default_run_args Demo.initialised_world)
      as [H _]; [vm_compute; reflexivity|].
    destruct (H eq_refl) as (exe & td & tp & Hexe & _ & Hcmd).
    reflexivity.
  - eexists _, _. split; [vm_compute; reflexivity|].
    edestruct (get_run_command_interpreter Demo.collaborators
                 posix_with_PYTHON Demo.conf_with_test_path
                 default_run_args Demo.initialised_world)
      as [_ H]; [vm_compute; reflexivity|].
    destruct (H ltac:(discriminate) eq_refl) as (td & tp & Hcmd).
    reflexivity.
Defined.

(** X24.  When no interpreter is known ([sys.executable] empty and, off
    [win32], no [PYTHON] either), [get_run_command] never returns a fixture
    and never reaches the gateway; with the paths given as arguments it
    raises [RuntimeError]. *)
Theorem get_run_command_no_interpreter
    (C : Collaborators) (pf : Platform) (self : TestrConf) (args : RunArgs)
    (w : World (Heap C)) :
  truthy (sys_executable pf) = false ->
  sys_platform pf = "win32" \/ truthy (environ_PYTHON pf) = false ->
  (exists e, get_run_command C pf self args w = (Raise e, w)) /\
  (truthy (test_path args) = true -> truthy (top_dir args) = true ->
   exists msg, get_run_command C pf self args w = (Raise (RuntimeError msg), w)).
Proof.
  intros Hexe Hpf.
  assert (exists msg, resolve_python C pf w = (Raise (RuntimeError msg), w))
    as [msg Hpy].
  { unfold resolve_python. rewrite Hexe.
    destruct (String.eqb_spec (sys_platform pf) "win32") as [?|Hne].
    - by eexists.
    - destruct Hpf as [?| ->]; [done|]. by eexists. }
  split.
  - unfold get_run_command, bind.
    destruct (resolve_test_path C self _ w) as [[tp|e] w0] eqn:H1.
    2:{ apply pure_step_eq in H1 as [_ ->]; [|apply resolve_test_path_pure].
        by exists e. }
    apply pure_step_eq in H1 as [_ ->]; [|apply resolve_test_path_pure].
    destruct (resolve_top_dir C self _ w) as [[td|e] w0] eqn:H2.
    2:{ apply pure_step_eq in H2 as [_ ->]; [|apply resolve_top_dir_pure].
        by exists e. }
    apply pure_step_eq in H2 as [_ ->]; [|apply resolve_top_dir_pure].
    rewrite Hpy. by eexists.
  - intros Htp Htd. exists msg. unfold get_run_command.
    destruct (test_path args) as [[|a tp]|]; try done.
    destruct (top_dir args) as [[|b td]|]; try done.
    rewrite (bind_ok _ _ _ _ _
               (resolve_test_path_argument C self (String a tp) w
                  ltac:(discriminate))).
    rewrite (bind_ok _ _ _ _ _
               (resolve_top_dir_argument C self (String b td) w
                  ltac:(discriminate))).
    by rewrite (bind_raise _ _ _ _ _ Hpy).
Qed.

Lemma get_run_command_no_interpreter_witness :
  get_run_command Demo.collaborators no_interpreter Demo.empty_conf
    explicit_args Demo.initialised_world
  = (Raise (RuntimeError
              ("The Python interpreter was not found and "
               +:+ "PYTHON is not set")),
     Demo.initialised_world).
Proof.
  destruct (get_run_command_no_interpreter Demo.collaborators no_interpreter
              Demo.empty_conf explicit_args Demo.initialised_world
              eq_refl (or_intror eq_refl)) as [_ H].
  destruct (H eq_refl eq_refl) as [msg Hmsg]. rewrite Hmsg.
  vm_compute in Hmsg. by injection Hmsg as <-.
Defined.

(** X25.  What a returned fixture carries: the two option strings
    [--list] and [--load-list $IDFILE], a command ending in the
    placeholders [$LISTOPT $IDOPTION], and the caller's test ids, filters
    and scheduling arguments as they were given. *)
Theorem get_run_command_fixture_fields
    (C : Collaborators) (pf : Platform) (self : TestrConf) (args : RunArgs)
    (w w' : World (Heap C)) (d : TestProcessorFixture (Repository C)) :
  get_run_command C pf self args w = (Ret d, w') ->
  f_listopt d = "--list" /\
  f_idoption d = "--load-list $IDFILE" /\
  (exists head, f_cmd_template d = head +:+ "$LISTOPT $IDOPTION") /\
  f_test_ids d = test_ids args /\
  f_test_filters d = regexes args /\
  f_serial d = serial args /\
  f_worker_path d = worker_path args /\
  f_concurrency d = concurrency args /\
  f_exclude_list d = exclude_list args /\
  f_exclude_regex d = exclude_regex args /\
  f_include_list d = include_list args /\
  f_randomize d = randomize args.
Proof.
  intros Hrun.
  apply get_run_command_returned in Hrun
    as (tp0 & td0 & py & g & cb & repo & s1 & _ & _ & _ & _ & _ & _ & _ & ->).
  repeat split; try reflexivity.
  cbn [f_cmd_template]. unfold command_template.
  exists ((if path_exists pf (quoted py) then quoted py else py)
          +:+ " -m stestr.subunit_runner.run discover -t "
          +:+ quoted (_sanitize_path pf td0) +:+ " "
          +:+ quoted (_sanitize_path pf tp0) +:+ " ").
  by rewrite !append_assoc.
Qed.

Lemma get_run_command_fixture_fields_witness :
  exists d w',
    get_run_command Demo.collaborators posix Demo.empty_conf
      explicit_args Demo.initialised_world = (Ret d, w') /\
    f_concurrency d = 4%Z /\ f_serial d = true /\
    f_test_filters d = Some ["TestA"].
Proof.
  eexists _, _. split; [vm_compute; reflexivity|].
  edestruct (get_run_command_fixture_fields Demo.collaborators posix
               Demo.empty_conf explicit_args Demo.initialised_world)
    as (_ & _ & _ & _ & Hfilters & Hserial & _ & Hconc & _);
    [vm_compute; reflexivity|].
  split; [exact Hconc|]. split; [exact Hserial | exact Hfilters].
Defined.

(** ** Further properties of [_sanitize_path] *)

Lemma at_dollar_long q a b c :
  Re.at_dollar (q +:+ String a (String b c)) = false.
Proof.
  destruct q as [|x [|y q]]; [done| |]; rewrite ?append_cons, ?append_nil;
    reflexivity.
Qed.

Lemma escape_scan_before_line_feed prev q c :
  c <> backslash ->
  escape_scan prev (q +:+ String c (String backslash (String LF "")))
  = q +:+ String c (String backslash (String backslash (String LF ""))).
Proof.
  intros Hc. revert prev. induction q as [|a q IH]; intros prev.
  - rewrite !append_nil. cbn.
    rewrite (proj2 (Ascii.eqb_neq _ _) Hc). rewrite andb_false_r. cbn.
    reflexivity.
  - rewrite !append_cons. cbn [escape_scan].
    rewrite at_dollar_long, andb_false_r. by rewrite IH.
Qed.

Lemma escape_scan_cases prev s :
  (exists q c, c <> backslash /\
     s = q +:+ String c (String backslash "") /\
     escape_scan prev s = q +:+ String c (String backslash (String backslash "")))
  \/
  (exists q c, c <> backslash /\
     s = q +:+ String c (String backslash (String LF "")) /\
     escape_scan prev s
     = q +:+ String c (String backslash (String backslash (String LF ""))))
  \/
  (after_non_backslash prev = true /\
   (s = String backslash "" \/ s = String backslash (String LF "")))
  \/ escape_scan prev s = s.
Proof.
  revert prev. induction s as [|c s' IH]; intros prev; [by do 3 right|].
  cbn [escape_scan].
  destruct (after_non_backslash prev && Ascii.eqb c backslash
            && Re.at_dollar s') eqn:Hm.
  - apply andb_prop in Hm as [[Hp Hc]%andb_prop Hd].
    apply Ascii.eqb_eq in Hc. subst c. right. right. left. split; [done|].
    destruct (at_dollar_cases _ Hd) as [-> | ->]; auto.
  - destruct (IH (Some c)) as
      [(q & c' & Hc' & -> & ->) | [(q & c' & Hc' & -> & ->)
       | [(Hp & Hs) | ->]]].
    + left. by exists (String c q), c'.
    + right. left. by exists (String c q), c'.
    + cbn in Hp. apply negb_true_iff, Ascii.eqb_neq in Hp.
      destruct Hs as [-> | ->].
      * left. exists "", c. repeat split; [done|]. cbn.
        by rewrite (proj2 (Ascii.eqb_neq _ _) Hp).
      * right. left. exists "", c. repeat split; [done|]. cbn.
        by rewrite (proj2 (Ascii.eqb_neq _ _) Hp).
    + by do 3 right.
Qed.

(** X26.  [_sanitize_path] changes a path in one way only, by doubling one
    backslash: the result is the path itself, or the path with its last
    backslash doubled where that backslash follows another character and
    is the last character or stands before a final line feed.  The change
    only happens where the separator is the backslash. *)
Theorem sanitize_path_cases (pf : Platform) (path : string) :
  (os_sep pf = "\" /\
   exists q c, c <> backslash /\
     path = q +:+ String c "\" /\
     _sanitize_path pf path = q +:+ String c "\\") \/
  (os_sep pf = "\" /\
   exists q c, c <> backslash /\
     path = q +:+ String c (String backslash (String LF "")) /\
     _sanitize_path pf path
     = q +:+ String c (String backslash (String backslash (String LF "")))) \/
  _sanitize_path pf path = path.
Proof.
  destruct (String.eqb_spec (os_sep pf) "\") as [Hsep|Hsep].
  - rewrite !sanitize_path_backslash by done.
    destruct (escape_scan_cases None path) as [H | [H | [[Hp _] | H]]].
    + left. by split.
    + right. left. by split.
    + done.
    + by right; right.
  - right; right. by apply sanitize_path_other_separator.
Qed.

(** X27.  Where the separator is the backslash, a path that ends in two or
    more backslashes, or that is made of backslashes only, is returned as
    it is. *)
Theorem sanitize_path_backslash_runs (pf : Platform) (path : string) :
  os_sep pf = "\" ->
  2 <= trailing_backslashes path \/
    trailing_backslashes path = String.length path ->
  _sanitize_path pf path = path.
Proof.
  intros Hsep Hrun. rewrite sanitize_path_backslash by done.
  apply escape_scan_no_site.
  destruct (has_escape_site None path) eqn:Hs; [|done].
  pose proof Hs as Hs'.
  apply has_escape_site_trailing in Hs as [H0|[H1 Hlen]].
  - destruct Hrun as [?|Hall]; [lia|]. rewrite H0 in Hall.
    destruct path; [done|]. cbn in Hall. lia.
  - destruct Hrun as [?|Hall]; [lia|]. rewrite H1 in Hall.
    by specialize (Hlen (eq_sym Hall)).
Qed.

Lemma sanitize_path_backslash_runs_witness :
  _sanitize_path windows "\\server\share\\" = "\\server\share\\" /\
  _sanitize_path windows "\" = "\".
Proof.
  split.
  - apply (sanitize_path_backslash_runs windows "\\server\share\\");
      [reflexivity | left; vm_compute; lia].
  - apply (sanitize_path_backslash_runs windows "\");
      [reflexivity | right; reflexivity].
Defined.

(** X28.  Where the separator is the backslash, a backslash that stands
    before a final line feed and follows another character is doubled as
    well, the line feed staying last. *)
Theorem sanitize_path_before_line_feed
    (pf : Platform) (q : string) (c : ascii) :
  os_sep pf = "\" -> c <> backslash ->
  _sanitize_path pf (q +:+ String c (String backslash (String LF "")))
  = q +:+ String c (String backslash (String backslash (String LF ""))).
Proof.
  intros Hsep Hc. rewrite sanitize_path_backslash by done.
  by apply escape_scan_before_line_feed.
Qed.

Lemma sanitize_path_before_line_feed_witness :
  _sanitize_path windows ("C:\wor" +:+ String "k" (String backslash (String LF "")))
  = "C:\wor" +:+ String "k" (String backslash (String backslash (String LF ""))).
Proof.
  apply (sanitize_path_before_line_feed windows "C:\wor" "k");
    [reflexivity | discriminate].
Defined.

(** ** Further properties of the classifier *)

Lemma substring_is_prefix n s : exists rest, s = substring 0 n s +:+ rest.
Proof.
  revert n. induction s as [|c s IH]; intros n.
  - exists "". by destruct n.
  - destruct n as [|n]; [by exists (String c s)|].
    destruct (IH n) as [rest Hrest]. exists rest. cbn [substring].
    rewrite append_cons. by f_equal.
Qed.

(** Whatever the pattern, the key the classifier gives a test id is a
    prefix of that id. *)
Lemma group_callback_prefix
    (regex : Re.regex) (test_id key : string) :
  group_callback regex test_id = Some key ->
  exists rest, test_id = key +:+ rest.
Proof.
  unfold group_callback, Re.re_match.
  destruct (Re.rmatch regex None test_id _) as [rest0|]; [|done].
  cbn [Re.group0]. intros [= <-]. apply substring_is_prefix.
Qed.

Lemma contains_dot_append p s :
  contains_dot (p +:+ s) = contains_dot p || contains_dot s.
Proof.
  induction p as [|c p IH]; [done|].
  rewrite append_cons. cbn [contains_dot]. by rewrite IH, orb_assoc.
Qed.

Lemma dotted_prefix_class p x :
  contains_dot x = false ->
  dotted_prefix (p +:+ String dot x) = p +:+ String dot "".
Proof.
  intros Hx. induction p as [|c p IH].
  - rewrite !append_nil. cbn [dotted_prefix]. rewrite Ascii.eqb_refl.
    cbn [orb]. by rewrite dotted_prefix_no_dot.
  - rewrite !append_cons. cbn [dotted_prefix].
    rewrite contains_dot_append. cbn [contains_dot]. rewrite Ascii.eqb_refl.
    cbn [orb]. rewrite !orb_true_r. by rewrite IH.
Qed.

(** X29.  The fixed pattern groups by class: a test id made of a dotted
    path, a dot and a last part without dots gets the path with its dot as
    key, so the tests of one class share their key. *)
Theorem group_callback_groups_by_class (class_path test_name : string) :
  contains_dot test_name = false ->
  group_callback parallel_class_re (class_path +:+ String dot test_name)
  = Some (class_path +:+ String dot "").
Proof.
  intros Hdot. rewrite group_callback_parallel_class.
  by rewrite dotted_prefix_class.
Qed.

Lemma group_callback_groups_by_class_witness :
  group_callback parallel_class_re "pkg.tests.TestA.test_one"
    = Some "pkg.tests.TestA." /\
  group_callback parallel_class_re "pkg.tests.TestA.test_two"
    = Some "pkg.tests.TestA.".
Proof.
  split.
  - apply (group_callback_groups_by_class "pkg.tests.TestA" "test_one").
    reflexivity.
  - apply (group_callback_groups_by_class "pkg.tests.TestA" "test_two").
    reflexivity.
Defined.
